(** * youtube-download-tool: a shallow embedding of [src/main.py]

    The program is a command-line front end to two external collaborators:
    the extraction engine ([yt_dlp]) and the media-processing binary
    ([ffmpeg], run through [subprocess]).  Both are taken as parameters
    (record [environment]); everything the program itself does -- building
    the option dictionary, the per-URL download, the subtitle embedder, the
    batch loop and the exit status -- is translated function by function.

    Conventions of the model:
    - a Python [str] is a [string]; a [pathlib.Path] is the [string] that
      [str(path)] gives (POSIX flavour, already normalised);
    - a [dict] with string keys is a [gmap string _]; a [set] is a [gset];
    - the file system is a finite map from paths to file contents; only
      regular files are represented;
    - effects are explicit: a computation takes the [world] (file system,
      console, log of the calls made to the collaborators) and returns an
      [outcome] (a value or a raised exception) with the new world. *)

From Stdlib Require Import PrimFloat ZArith Ascii String.
From stdpp Require Import base option strings pretty list gmap fin_maps fin_sets sets.

#[local] Set Warnings "-register-all".

Local Open Scope string_scope.
Local Open Scope Z_scope.
Local Open Scope list_scope.

(** ** Python values and exceptions *)

Module Py.

(** The values stored in the option dictionary handed to [yt_dlp.YoutubeDL]. *)
Inductive value :=
| VNone
| VBool (b : bool)
| VStr (s : string)
| VFloat (x : float)
| VList (l : list value)
| VDict (d : list (string * value))
| VHook (quiet : bool).            (* a [DownloadProgressHook(quiet)] object *)

(** Instances of [Exception]: the classes the program names in an [except]
    clause or that its library calls raise; [OtherException] stands for any
    other subclass of [Exception].  Each carries its message ([str(e)]). *)
Inductive exception :=
| DownloadError (msg : string)         (* yt_dlp.utils.DownloadError *)
| CalledProcessError (msg : string)    (* subprocess.CalledProcessError *)
| SubprocessError (msg : string)       (* any other subprocess.SubprocessError *)
| FileNotFoundError (msg : string)
| OSError (msg : string)               (* any other OSError *)
| ValueError (msg : string)
| OtherException (msg : string).

Definition str_of_exception (e : exception) : string :=
  match e with
  | DownloadError m | CalledProcessError m | SubprocessError m
  | FileNotFoundError m | OSError m | ValueError m | OtherException m => m
  end.

(** Instances of [BaseException]: an [Exception], or one of the two
    the program meets that [except Exception] does not catch. *)
Inductive base_exception :=
| Exc (e : exception)
| KeyboardInterrupt
| SystemExit (code : Z).

Inductive outcome (A : Type) :=
| Ok (a : A)
| Raise (e : base_exception).
Arguments Ok {A} a.
Arguments Raise {A} e.

(** Truth value of a [str] and of an [Optional[str]]. *)
Definition truthy_str (s : string) : bool :=
  match s with EmptyString => false | _ => true end.

Definition truthy_opt_str (o : option string) : bool :=
  match o with Some s => truthy_str s | None => false end.

(** Truth value of a [float]: zero (of either sign) is false. *)
Definition truthy_float (x : float) : bool := negb (PrimFloat.eqb x 0%float).

(** [a or b] on an optional string. *)
Definition or_str (a : option string) (b : string) : string :=
  match a with
  | Some s => if truthy_str s then s else b
  | None => b
  end.

(** [str.rpartition(c)] when [c] occurs: the text before and after the
    last occurrence of [c]; [None] when [c] does not occur. *)
Fixpoint rpartition (c : ascii) (s : string) : option (string * string) :=
  match s with
  | EmptyString => None
  | String a s' =>
      match rpartition c s' with
      | Some (before, after) => Some (String a before, after)
      | None => if Ascii.eqb a c then Some (EmptyString, s') else None
      end
  end.

(** [c in s]. *)
Fixpoint contains (c : ascii) (s : string) : bool :=
  match s with
  | EmptyString => false
  | String a s' => Ascii.eqb a c || contains c s'
  end.

(** Decimal rendering of a natural number ([str(n)]). *)
Definition str_of_nat (n : nat) : string := pretty n.

End Py.

Import Py.

(** ** pathlib (POSIX flavour) *)

Module Pathlib.

(** [Path(s)] from a string: the empty string is the current directory. *)
Definition Path (s : string) : string :=
  match s with EmptyString => "." | _ => s end.

(** The directory prefix (with its final separator) and the final
    component of a path; [Path('.')] and [Path('/')] have an empty name. *)
Definition split (p : string) : string * string :=
  if String.eqb p "." then (p, "")
  else match rpartition "/" p with
       | Some (d, n) => (d +:+ "/", n)
       | None => ("", p)
       end.

Definition name (p : string) : string := (split p).2.

(** [Path.suffix]: from the last dot of the name, when that dot is neither
    the first nor the last character of the name. *)
Definition stem_suffix (n : string) : string * string :=
  match rpartition "." n with
  | Some (st, ext) =>
      if truthy_str st && truthy_str ext then (st, "." +:+ ext) else (n, "")
  | None => (n, "")
  end.

Definition suffix (p : string) : string := (stem_suffix (name p)).2.

(** [Path.with_suffix(suffix)]: [ValueError] on a suffix that holds a
    separator, that does not start with a dot or that is a lone dot, and
    on a path with an empty name. *)
Definition with_suffix (p : string) (sfx : string) : outcome string :=
  if contains "/" sfx then Raise (Exc (ValueError ("Invalid suffix " +:+ sfx)))
  else if (truthy_str sfx && negb (String.prefix "." sfx)) || String.eqb sfx "."
  then Raise (Exc (ValueError ("Invalid suffix " +:+ sfx)))
  else
    let '(d, n) := split p in
    if negb (truthy_str n) then Raise (Exc (ValueError (p +:+ " has an empty name")))
    else Ok (d +:+ (stem_suffix n).1 +:+ sfx).

(** [dir / name]. *)
Definition joinpath (d n : string) : string :=
  match rpartition "/" d with
  | Some (_, EmptyString) => d +:+ n
  | _ => d +:+ "/" +:+ n
  end.

End Pathlib.

Import Pathlib.

(** ** The world: file system, console and the calls to the collaborators *)

(** The calls the program makes to its collaborators, logged in order. *)
Inductive call :=
| ExtractInfo (url : string) (opts : gmap string value) (download : bool)
| SubprocessRun (cmd : list string).

Record world := World {
  fs : gmap string string;       (* path |-> contents of the regular file *)
  stdout : list string;          (* what [print] wrote, one entry per call *)
  calls : list call;
}.

Definition set_fs (f : gmap string string) (w : world) : world :=
  World f (stdout w) (calls w).
Definition add_stdout (s : string) (w : world) : world :=
  World (fs w) (stdout w ++ [s]) (calls w).
Definition add_call (c : call) (w : world) : world :=
  World (fs w) (stdout w) (calls w ++ [c]).

(** Computations: state passing with exceptions.  The state a computation
    reached when it raised is kept, as in Python. *)
Definition M (A : Type) : Type := world → outcome A * world.

Definition ret {A} (a : A) : M A := λ w, (Ok a, w).

Definition bind {A B} (m : M A) (k : A → M B) : M B :=
  λ w, match m w with
       | (Ok a, w') => k a w'
       | (Raise e, w') => (Raise e, w')
       end.

Notation "'do' x <- m ; k" := (bind m (λ x, k))
  (at level 10, x name, m at level 100, k at level 200).
Notation "m ;; k" := (bind m (λ _, k))
  (at level 100, k at level 200, right associativity).

Definition raise {A} (e : base_exception) : M A := λ w, (Raise e, w).

Definition lift {A} (o : outcome A) : M A := λ w, (o, w).

Definition get_world : M world := λ w, (Ok w, w).

(** [try: body except ...: handler]: the handler sees instances of
    [Exception] only and may decline ([None]: no clause matches). *)
Definition try_except {A} (body : M A) (handler : exception → option (M A)) : M A :=
  λ w, match body w with
       | (Raise (Exc e), w') =>
           match handler e with
           | Some h => h w'
           | None => (Raise (Exc e), w')
           end
       | r => r
       end.

(** [for x in l: body x]. *)
Fixpoint for_each {A} (l : list A) (body : A → M unit) : M unit :=
  match l with
  | [] => ret tt
  | x :: rest => body x ;; for_each rest body
  end.

Definition print (s : string) : M unit := λ w, (Ok tt, add_stdout s w).

Definition nl : string := String "010"%char EmptyString.

(** [s * n]. *)
Fixpoint str_mul (s : string) (n : nat) : string :=
  match n with
  | O => EmptyString
  | S n' => s +:+ str_mul s n'
  end.

(** *** File operations of [pathlib] on the modelled file system *)

Definition path_exists (p : string) : M bool :=
  λ w, (Ok (bool_decide (is_Some (fs w !! p))), w).

Definition unlink (p : string) : M unit :=
  λ w, match fs w !! p with
       | Some _ => (Ok tt, set_fs (delete p (fs w)) w)
       | None => (Raise (Exc (FileNotFoundError ("No such file or directory: " +:+ p))), w)
       end.

(** [src.rename(dst)]: replaces [dst] when it exists. *)
Definition rename (src dst : string) : M unit :=
  λ w, match fs w !! src with
       | Some content => (Ok tt, set_fs (<[dst := content]> (delete src (fs w))) w)
       | None => (Raise (Exc (FileNotFoundError ("No such file or directory: " +:+ src))), w)
       end.

(** [shutil.rmtree(d)] as the temporary directory does it on exit: the
    files under [d] go. *)
Definition remove_tree (d : string) (w : world) : world :=
  set_fs (filter (λ kv, String.prefix (d +:+ "/") kv.1 = false) (fs w)) w.

(** ** The collaborators *)

(** What [subprocess.run] meets: the process ran and exited, leaving the
    file system as [fs'], or it could not be started. *)
Inductive process :=
| Exited (returncode : Z) (fs' : gmap string string)
| NotStarted (e : exception).

(** The part of the engine's info dictionary the program reads outside
    the format table: the title and the key sets of the two caption
    mappings ([None]: the key is absent from the dictionary). *)
Record info_dict := Info_dict {
  info_title : option string;
  info_subtitles : option (gset string);
  info_automatic_captions : option (gset string);
}.

Record environment := Environment {
  (** [YoutubeDL(opts).extract_info(url, download=...)] on a file system *)
  extract_info : string → gmap string value → bool → gmap string string →
                 (exception + info_dict) * gmap string string;
  (** [YoutubeDL(opts).prepare_filename(info)] *)
  prepare_filename : gmap string value → info_dict → exception + string;
  (** the process [subprocess.run] starts for a command line *)
  subprocess : list string → gmap string string → process;
  (** [str(e)] of the [CalledProcessError(returncode, cmd)] that
      [subprocess.run(check=True)] raises: the text Python makes of the
      command list and of the exit status or signal *)
  called_process_error_str : list string → Z → string;
  (** the directory [tempfile.TemporaryDirectory()] creates *)
  mkdtemp : gmap string string → string;
  (** the order in which Python iterates over a set of strings *)
  set_order : gset string → list string;
  (** the lines [list_formats] prints for a resolved video: title,
      duration, uploader, the format table and the caption languages *)
  render_formats : info_dict → list string;
}.

(** ** Constants of [main.py] *)

Definition FFMPEG_CHECK_CMD : list string := ["ffmpeg"; "-version"].
Definition SUPPORTED_SUBTITLE_FORMATS : list string := [".vtt"; ".srt"; ".ass"].
Definition EXIT_SUCCESS : Z := 0.
Definition EXIT_GENERAL_ERROR : Z := 1.
Definition EXIT_NETWORK_ERROR : Z := 2.
Definition EXIT_INVALID_INPUT : Z := 3.
Definition EXIT_MISSING_DEPENDENCY : Z := 4.

(** The parsed command line ([argparse.Namespace]). *)
Record Namespace := {
  urls : list string;
  output_dir : string;
  format : option string;
  audio_only : bool;
  video_only : bool;
  subtitles : bool;
  sub_lang : string;
  embed_subs : bool;
  merge : bool;
  overwrite : bool;
  quiet : bool;
  progress : bool;
  max_filesize : option float;
  simulate : bool;
}.

(** The fields of a [YouTubeDownloader] object. *)
Record YouTubeDownloader := {
  args : Namespace;
  self_output_dir : string;
  ffmpeg_available : bool;
}.

(** ** The program *)

Section Program.

Context (env : environment).

(** *** Calls to the collaborators *)

Definition ydl_extract_info (url : string) (opts : gmap string value)
    (download : bool) : M info_dict :=
  λ w, let '(r, fs') := extract_info env url opts download (fs w) in
       let w' := add_call (ExtractInfo url opts download) (set_fs fs' w) in
       match r with
       | inl e => (Raise (Exc e), w')
       | inr info => (Ok info, w')
       end.

Definition ydl_prepare_filename (opts : gmap string value) (info : info_dict) : M string :=
  lift (match prepare_filename env opts info with
        | inl e => Raise (Exc e)
        | inr filename => Ok filename
        end).

(** [subprocess.run(cmd, check=check).returncode]; where the output
    streams go is not modelled. *)
Definition subprocess_run (cmd : list string) (check : bool) : M Z :=
  λ w, let w1 := add_call (SubprocessRun cmd) w in
       match subprocess env cmd (fs w) with
       | NotStarted e => (Raise (Exc e), w1)
       | Exited returncode fs' =>
           let w2 := set_fs fs' w1 in
           if check && negb (returncode =? 0)
           then (Raise (Exc (CalledProcessError
                               (called_process_error_str env cmd returncode))), w2)
           else (Ok returncode, w2)
       end.

(** [with tempfile.TemporaryDirectory() as temp_dir: body]: whatever lies
    under the directory is removed on every way out of the body. *)
Definition with_TemporaryDirectory {A} (body : string → M A) : M A :=
  λ w, let temp_dir := mkdtemp env (fs w) in
       let '(r, w') := body temp_dir w in
       (r, remove_tree temp_dir w').

(** *** [YouTubeDownloader._check_ffmpeg] *)

Definition _check_ffmpeg : M bool :=
  try_except
    (do returncode <- subprocess_run FFMPEG_CHECK_CMD false;
     ret (returncode =? 0))
    (λ e, match e with
          | CalledProcessError _ | SubprocessError _ | FileNotFoundError _ =>
              Some (ret false)
          | _ => None
          end).

(** *** [YouTubeDownloader.__init__]

    [Path(args.output_dir).resolve()] and the [mkdir] of the output
    directory are not modelled: [output_dir] is taken as an absolute path
    and directories are not represented in the file system. *)
Definition __init__ (a : Namespace) : M YouTubeDownloader :=
  do available <- _check_ffmpeg;
  (if negb available && (merge a || embed_subs a)
   then print "Warning: ffmpeg not found. Merge and embed features will be disabled." ;;
        print "Install ffmpeg from: https://ffmpeg.org/download.html"
   else ret tt) ;;
  ret {| args := a; self_output_dir := output_dir a; ffmpeg_available := available |}.

(** *** [YouTubeDownloader._get_ydl_opts] *)

Definition _get_ydl_opts (self : YouTubeDownloader) (temp_dir : string) : gmap string value :=
  let a := args self in
  let opts : gmap string value :=
    <["merge_output_format" := if merge a then VStr "mp4" else VNone]>
    (<["no_color" := VBool false]>
    (<["windowsfilenames" := VBool true]>
    (<["restrictfilenames" := VBool true]>
    (<["overwrites" := VBool (overwrite a)]>
    (<["progress_hooks" := VList [VHook (quiet a)]]>
    (<["no_warnings" := VBool (quiet a)]>
    (<["quiet" := VBool (quiet a)]>
    (<["outtmpl" := VStr (joinpath (self_output_dir self) "%(title)s.%(ext)s")]> ∅)))))))) in
  (* Format selection *)
  let opts :=
    if audio_only a then
      <["postprocessors" :=
          if ffmpeg_available self
          then VList [VDict [("key", VStr "FFmpegExtractAudio");
                             ("preferredcodec", VStr "mp3");
                             ("preferredquality", VStr "192")]]
          else VList []]>
      (<["format" := VStr (or_str (format a) "bestaudio/best")]> opts)
    else if video_only a then
      <["format" := VStr (or_str (format a) "bestvideo")]> opts
    else
      <["format" := VStr (or_str (format a) "bestvideo+bestaudio/best")]> opts in
  (* Subtitle options *)
  let opts :=
    if subtitles a then
      let opts :=
        <["subtitlesformat" := VStr "srt/vtt/best"]>
        (<["writeautomaticsub" := VBool true]>
        (<["writesubtitles" := VBool true]> opts)) in
      if String.eqb (sub_lang a) "all"
      then <["subtitleslangs" := VList [VStr "all"]]> opts
      else <["subtitleslangs" := VList [VStr (sub_lang a)]]> opts
    else opts in
  (* File size limit *)
  let opts :=
    match max_filesize a with
    | Some mb =>
        if truthy_float mb
        then let max_bytes := (mb * 1024 * 1024)%float in
             <["max_filesize" := VFloat max_bytes]> opts
        else opts
    | None => opts
    end in
  (* Temporary directory for downloads *)
  if truthy_str temp_dir
  then <["paths" := VDict [("temp", VStr temp_dir);
                           ("home", VStr (self_output_dir self))]]> opts
  else opts.

(** *** [YouTubeDownloader.list_formats]

    What is printed for a resolved video is the environment's
    [render_formats]; the control flow is the program's. *)
Definition list_formats_opts : gmap string value :=
  <["simulate" := VBool true]>
  (<["no_warnings" := VBool true]>
  (<["quiet" := VBool true]> ∅)).

Definition list_formats (self : YouTubeDownloader) (url : string) : M unit :=
  print (nl +:+ "Fetching available formats for: " +:+ url) ;;
  let ydl_opts := list_formats_opts in
  try_except
    (do info <- ydl_extract_info url ydl_opts false;
     for_each (render_formats env info) print)
    (λ e, match e with
          | DownloadError msg =>
              Some (print ("Error fetching video info: " +:+ msg) ;;
                    raise (SystemExit EXIT_NETWORK_ERROR))
          | _ => None
          end).

(** *** [YouTubeDownloader._embed_subtitles] *)

(** [Path(f"{base_path}.{lang}{ext}")]. *)
Definition sub_file_path (base_path lang ext : string) : string :=
  Path (base_path +:+ "." +:+ lang +:+ ext).

(** The inner loop with its [break]: the first supported extension whose
    side-car file exists. *)
Fixpoint first_existing (files : gmap string string) (base_path lang : string)
    (exts : list string) : option string :=
  match exts with
  | [] => None
  | ext :: rest =>
      let sub_file := sub_file_path base_path lang ext in
      if bool_decide (is_Some (files !! sub_file)) then Some sub_file
      else first_existing files base_path lang rest
  end.

(** The outer loop: [subtitle_files] grows by [append]. *)
Definition find_subtitle_files (files : gmap string string) (base_path : string)
    (langs : list string) : list (string * string) :=
  foldl (λ subtitle_files lang,
           match first_existing files base_path lang SUPPORTED_SUBTITLE_FORMATS with
           | Some sub_file => subtitle_files ++ [(lang, sub_file)]
           | None => subtitle_files
           end) [] langs.

(** [info.get(key, {}).keys()]. *)
Definition keys_or_empty (d : option (gset string)) : gset string := default ∅ d.

(** The languages the discovery loop visits, in Python's set order. *)
Definition caption_languages (info : info_dict) : list string :=
  set_order env (keys_or_empty (info_subtitles info)
                 ∪ keys_or_empty (info_automatic_captions info)).

Definition ffmpeg_cmd (overwrite_flag : bool) (video_path : string)
    (subtitle_files : list (string * string)) (temp_output : string) : list string :=
  let cmd := ["ffmpeg"; "-i"; video_path] in
  (* Add subtitle inputs *)
  let cmd := cmd ++ concat ((λ ls, ["-i"; ls.2]) <$> subtitle_files) in
  (* Map video and audio from first input *)
  let cmd := cmd ++ ["-map"; "0:v"; "-map"; "0:a"] in
  (* Map all subtitle streams *)
  let cmd := cmd ++ concat ((λ i, ["-map"; str_of_nat (i + 1) +:+ ":s"])
                              <$> seq 0 (length subtitle_files)) in
  (* Set subtitle metadata *)
  let cmd := cmd ++ concat (imap (λ i ls, ["-metadata:s:s:" +:+ str_of_nat i;
                                           "language=" +:+ ls.1]) subtitle_files) in
  (* Copy codecs (no re-encoding) *)
  let cmd := cmd ++ ["-c"; "copy"] in
  (* Output file *)
  cmd ++ [if overwrite_flag then "-y" else "-n"; temp_output].

Definition _embed_subtitles (self : YouTubeDownloader) (video_path : string)
    (info : info_dict) : M string :=
  do present <- path_exists video_path;
  if negb present then
    print ("Warning: Video file not found for subtitle embedding: " +:+ video_path) ;;
    ret video_path
  else
    (* Find subtitle files *)
    do base_path <- lift (with_suffix video_path "");
    do w <- get_world;
    let subtitle_files := find_subtitle_files (fs w) base_path (caption_languages info) in
    match subtitle_files with
    | [] =>
        print "No subtitle files found to embed" ;;
        ret video_path
    | _ :: _ =>
        print ("Embedding " +:+ str_of_nat (length subtitle_files)
               +:+ " subtitle track(s)...") ;;
        (* Create temporary output file *)
        do temp_output <- lift (with_suffix video_path (".temp" +:+ suffix video_path));
        (* Build ffmpeg command *)
        let cmd := ffmpeg_cmd (overwrite (args self)) video_path subtitle_files temp_output in
        try_except
          (subprocess_run cmd true ;;
           (* Replace original with embedded version *)
           do produced <- path_exists temp_output;
           if produced then
             unlink video_path ;;
             rename temp_output video_path ;;
             print "✓ Subtitles embedded successfully" ;;
             (* Clean up subtitle files *)
             for_each subtitle_files (λ ls, unlink ls.2)
           else ret tt)
          (λ e, match e with
                | CalledProcessError msg =>
                    Some (print ("Warning: Failed to embed subtitles: " +:+ msg) ;;
                          do leftover <- path_exists temp_output;
                          if leftover then unlink temp_output else ret tt)
                | _ => None
                end) ;;
        ret video_path
    end.

(** *** [YouTubeDownloader.download_video] *)

(** [opts[key]] for a key whose value is printed. *)
Definition getitem_str (opts : gmap string value) (key : string) : outcome string :=
  match opts !! key with
  | Some (VStr s) => Ok s
  | Some _ => Ok "None"
  | None => Raise (Exc (OtherException ("KeyError: " +:+ key)))
  end.

(** The output path computed from the engine's file name, before the
    embedder is consulted. *)
Definition expected_output_path (self : YouTubeDownloader) (filename : string)
    : outcome string :=
  let output_path := Path filename in
  (* Handle different extensions based on post-processing *)
  if audio_only (args self) && ffmpeg_available self
  then with_suffix output_path ".mp3"
  else Ok output_path.

(** The body of the [try] block of [download_video]. *)
Definition download_attempt (self : YouTubeDownloader) (url : string)
    (ydl_opts : gmap string value) : M (option string) :=
  (if negb (quiet (args self))
   then print (nl +:+ "Downloading: " +:+ url) else ret tt) ;;
  (* Extract info and download *)
  do info <- ydl_extract_info url ydl_opts (negb (simulate (args self)));
  if simulate (args self) then
    (* Dry run - show what would be downloaded *)
    print (nl +:+ "[DRY RUN] Would download:") ;;
    print ("  Title: " +:+ default "Unknown" (info_title info)) ;;
    do selector <- lift (getitem_str ydl_opts "format");
    print ("  Format: " +:+ selector) ;;
    print ("  Output directory: " +:+ self_output_dir self) ;;
    ret None
  else
    (* Get the output filename *)
    do filename <- ydl_prepare_filename ydl_opts info;
    do output_path <- lift (expected_output_path self filename);
    (* Embed subtitles if requested *)
    do output_path <-
      (if embed_subs (args self) && subtitles (args self) && ffmpeg_available self
       then _embed_subtitles self output_path info
       else ret output_path);
    do present <- path_exists output_path;
    if present then
      print ("✓ Downloaded: " +:+ output_path) ;;
      ret (Some output_path)
    else
      print ("Warning: Expected file not found: " +:+ output_path) ;;
      ret None.

(** The two [except] clauses of [download_video]. *)
Definition download_failed (e : exception) : option (M (option string)) :=
  match e with
  | DownloadError msg =>
      Some (print ("Download error: " +:+ msg) ;; ret None)
  | _ =>
      Some (print ("Unexpected error: " +:+ str_of_exception e) ;; ret None)
  end.

Definition download_video (self : YouTubeDownloader) (url : string) : M (option string) :=
  (* Create temporary directory for downloads *)
  with_TemporaryDirectory (λ temp_dir,
    let ydl_opts := _get_ydl_opts self temp_dir in
    try_except (download_attempt self url ydl_opts) download_failed).

(** *** [YouTubeDownloader.run] *)

(** The download loop with its two accumulators. *)
Fixpoint download_each (self : YouTubeDownloader) (todo : list string)
    (success_count : nat) (failed_urls : list string) : M (nat * list string) :=
  match todo with
  | [] => ret (success_count, failed_urls)
  | url :: rest =>
      do result <- download_video self url;
      if truthy_opt_str result
      then download_each self rest (success_count + 1)%nat failed_urls
      else download_each self rest success_count (failed_urls ++ [url])
  end.

Definition print_summary (self : YouTubeDownloader) (success_count : nat)
    (failed_urls : list string) : M unit :=
  print (nl +:+ str_mul "=" 60) ;;
  print "Download Summary:" ;;
  print ("  Successful: " +:+ str_of_nat success_count +:+ "/"
         +:+ str_of_nat (length (urls (args self)))) ;;
  match failed_urls with
  | [] => ret tt
  | _ :: _ =>
      print "  Failed URLs:" ;;
      for_each failed_urls (λ url, print ("    - " +:+ url))
  end.

Definition run (self : YouTubeDownloader) : M Z :=
  (* Show formats if requested or in dry-run mode *)
  if simulate (args self) then
    for_each (urls (args self))
      (λ url, list_formats self url ;; print (nl +:+ str_mul "=" 80)) ;;
    ret EXIT_SUCCESS
  else
    (* Download each URL *)
    do counted <- download_each self (urls (args self)) 0%nat [];
    let '(success_count, failed_urls) := counted in
    (* Summary *)
    print_summary self success_count failed_urls ;;
    ret (if (success_count =? length (urls (args self)))%nat
         then EXIT_SUCCESS else EXIT_GENERAL_ERROR).

(** *** [main], after [parse_arguments]: the exit status of the process *)
Definition main (a : Namespace) (w : world) : Z * world :=
  match (do downloader <- __init__ a; run downloader) w with
  | (Ok exit_code, w') => (exit_code, w')                (* sys.exit(exit_code) *)
  | (Raise (SystemExit code), w') => (code, w')
  | (Raise KeyboardInterrupt, w') =>
      (EXIT_GENERAL_ERROR, add_stdout (nl +:+ nl +:+ "Download cancelled by user.") w')
  | (Raise (Exc e), w') =>
      (EXIT_GENERAL_ERROR,
       add_stdout (nl +:+ "Unexpected error: " +:+ str_of_exception e) w')
  end.

(** ** Notions used in the statements *)

(** The runs of [download_video] over a batch, one after the other:
    the value each returned and the world the last one left. *)
Inductive batch (self : YouTubeDownloader) :
    list string → world → list (option string) → world → Prop :=
| batch_nil w : batch self [] w [] w
| batch_cons url rest w result w1 results w' :
    download_video self url w = (Ok result, w1) →
    batch self rest w1 results w' →
    batch self (url :: rest) w (result :: results) w'.

End Program.

(** The URLs of a batch whose download returned [None], in input order. *)
Definition failures (batch_urls : list string) (results : list (option string))
    : list string :=
  (filter (λ ur, ur.2 = None) (zip batch_urls results)).*1.

(** The two lines of the start-up warning. *)
Definition startup_warning : list string :=
  ["Warning: ffmpeg not found. Merge and embed features will be disabled.";
   "Install ffmpeg from: https://ffmpeg.org/download.html"].

(** The command line without [--embed-subs]. *)
Definition without_embed_subs (a : Namespace) : Namespace :=
  {| urls := urls a; output_dir := output_dir a; format := format a;
     audio_only := audio_only a; video_only := video_only a;
     subtitles := subtitles a; sub_lang := sub_lang a; embed_subs := false;
     merge := merge a; overwrite := overwrite a; quiet := quiet a;
     progress := progress a; max_filesize := max_filesize a;
     simulate := simulate a |}.

(** Python's set order, whatever it is, visits every member once. *)
Definition set_order_sound (env : environment) : Prop :=
  ∀ s : gset string,
    NoDup (set_order env s) ∧ ∀ x, x ∈ set_order env s ↔ x ∈ s.

(** A process that, whatever it is asked, starts, exits, and writes to no
    file but the last argument of its command line. *)
Definition writes_output_only (env : environment) : Prop :=
  ∀ cmd files, ∃ returncode files',
    subprocess env cmd files = Exited returncode files' ∧
    ∀ p, last cmd ≠ Some p → files' !! p = files !! p.

(** The metadata query [list_formats] makes for a URL. *)
Definition listing_query (url : string) : call :=
  ExtractInfo url list_formats_opts false.

(** How many downloads of a batch returned [None]. *)
Definition failed_count (results : list (option string)) : nat :=
  length (filter (λ r, r = None) results).

(** The lines of the download summary. *)
Definition summary_lines (total success_count : nat) (failed_urls : list string)
    : list string :=
  [nl +:+ str_mul "=" 60; "Download Summary:";
   "  Successful: " +:+ str_of_nat success_count +:+ "/" +:+ str_of_nat total]
  ++ match failed_urls with
     | [] => []
     | _ :: _ => "  Failed URLs:" :: ((λ url, "    - " +:+ url) <$> failed_urls)
     end.

(** The line [download_video] prints for an exception it caught. *)
Definition failure_line (e : exception) : string :=
  match e with
  | DownloadError msg => "Download error: " +:+ msg
  | _ => "Unexpected error: " +:+ str_of_exception e
  end.

(** A path with a non-empty name: directory prefix, stem and suffix. *)
Record parts (p d st sx : string) : Prop := {
  parts_split : split p = (d, st +:+ sx);
  parts_stem : stem_suffix (st +:+ sx) = (st, sx);
  parts_path : p = d +:+ st +:+ sx;
  parts_stem_ne : st ≠ "";
  parts_dir : d = "" ∨ ∃ d', d = d' +:+ "/";
  parts_stem_sep : contains "/" st = false;
  parts_suffix_sep : contains "/" sx = false;
  parts_suffix : sx = "" ∨ ∃ e, sx = "." +:+ e ∧ e ≠ "" ∧ contains "." e = false;
}.


(** A computation that raises nothing but instances of [Exception]. *)
Definition raises_only_exceptions {A} (m : M A) : Prop :=
  ∀ w e w', m w = (Raise e, w') → ∃ x, e = Exc x.

(** A computation whose only possible value is [v]. *)
Definition returns_only {A} (v : A) (m : M A) : Prop :=
  ∀ w r w', m w = (Ok r, w') → r = v.


(** ** A small environment to run the model on

    One video, "clip", with manual English captions and automatic English
    and French ones; one URL the engine refuses; an [ffmpeg] whose probe
    and remux exit with the given statuses, the remux leaving a complete
    output file on status 0 and a half-written one otherwise. *)

Module Demo.

Definition info : info_dict :=
  Info_dict (Some "clip") (Some {["en"]}) (Some {["en"; "fr"]}).

Definition engine (url : string) (opts : gmap string value) (download : bool)
    (files : gmap string string) : (exception + info_dict) * gmap string string :=
  if String.eqb url "https://youtu.be/bad"
  then (inl (DownloadError "Video unavailable"), files)
  else (inr info,
        if download
        then <["/out/clip.en.vtt" := "WEBVTT"]> (<["/out/clip.mp4" := "video"]> files)
        else files).

Definition ffmpeg (probe_rc remux_rc : Z) (cmd : list string)
    (files : gmap string string) : process :=
  if bool_decide (cmd = FFMPEG_CHECK_CMD) then Exited probe_rc files
  else Exited remux_rc
         (match last cmd with
          | Some out => <[out := if remux_rc =? 0 then "muxed" else "half"]> files
          | None => files
          end).

(** The text of a [CalledProcessError] for a positive exit status and
    command words that Python shows unchanged between single quotes, as
    are those of the sample runs. *)
Definition error_text (cmd : list string) (returncode : Z) : string :=
  "Command '[" +:+ String.concat ", " ((λ a, "'" +:+ a +:+ "'") <$> cmd)
  +:+ "]' returned non-zero exit status " +:+ pretty returncode +:+ ".".

Definition env (probe_rc remux_rc : Z) : environment :=
  {| extract_info := engine;
     prepare_filename := λ _ _, inr "/out/clip.mp4";
     subprocess := ffmpeg probe_rc remux_rc;
     called_process_error_str := error_text;
     mkdtemp := λ _, "/tmp/tmp8x3k";
     set_order := elements;
     render_formats := λ i, ["Title: " +:+ default "Unknown" (info_title i)] |}.

Definition request (batch_urls : list string) (audio simulated : bool) : Namespace :=
  {| urls := batch_urls; output_dir := "/out"; format := None;
     audio_only := audio; video_only := false;
     subtitles := true; sub_lang := "en"; embed_subs := true; merge := true;
     overwrite := false; quiet := false; progress := true;
     max_filesize := Some 10%float; simulate := simulated |}.

(** [--audio-only] and nothing else. *)
Definition plain_audio : Namespace :=
  {| urls := ["https://youtu.be/abc"]; output_dir := "/out"; format := None;
     audio_only := true; video_only := false;
     subtitles := false; sub_lang := "en"; embed_subs := false; merge := false;
     overwrite := false; quiet := false; progress := true;
     max_filesize := None; simulate := false |}.

Definition downloader (a : Namespace) (available : bool) : YouTubeDownloader :=
  {| args := a; self_output_dir := output_dir a; ffmpeg_available := available |}.

Definition three_urls : list string :=
  ["https://youtu.be/abc"; "https://youtu.be/bad"; "https://youtu.be/xyz"].

(** A listing request whose first URL the engine refuses. *)
Definition listing : Namespace :=
  request ["https://youtu.be/bad"; "https://youtu.be/abc"] false true.

Definition nothing : world := World ∅ [] [].

(** The output directory after a download of "clip" with its English
    captions. *)
Definition fetched : world :=
  World (<["/out/clip.en.vtt" := "WEBVTT"]> (<["/out/clip.mp4" := "video"]> ∅)) [] [].

(** The same directory without the captions. *)
Definition bare : world :=
  World (<["/out/clip.mp4" := "video"]> ∅) [] [].

End Demo.

(** ** The command-line boundary *)

(** [needle in haystack] on strings. *)
Fixpoint is_substring (needle haystack : string) : bool :=
  String.prefix needle haystack
  || match haystack with
     | EmptyString => false
     | String _ rest => is_substring needle rest
     end.

(** [validate_url].  [urllib.parse.urlparse] is a parameter: for a URL it
    gives the scheme and the network location, or raises. *)
Definition validate_url (urlparse : string → exception + string * string)
    (url : string) : exception + bool :=
  match urlparse url with
  | inl e => inl e
  | inr (scheme, netloc) =>
      let valid_hosts := ["youtube.com"; "www.youtube.com"; "youtu.be"; "m.youtube.com"] in
      inr (bool_decide (scheme ∈ ["http"; "https"])
           && existsb (λ host, is_substring host netloc) valid_hosts)
  end.

(** What [parse_arguments] does once [parser.parse_args()] has returned:
    the two validations.  [parser.error(message)] writes the message to
    the standard error and exits with status 2. *)
Inductive parsed :=
| Parsed (a : Namespace)
| ParserError (message : string)
| ParserRaised (e : exception).

Fixpoint validate_urls (urlparse : string → exception + string * string)
    (todo : list string) : option parsed :=
  match todo with
  | [] => None
  | url :: rest =>
      match validate_url urlparse url with
      | inr true => validate_urls urlparse rest
      | inr false => Some (ParserError ("Invalid YouTube URL: " +:+ url))
      | inl e => Some (ParserRaised e)
      end
  end.

Definition parse_arguments (urlparse : string → exception + string * string)
    (a : Namespace) : parsed :=
  (* Validate arguments *)
  if audio_only a && video_only a
  then ParserError "--audio-only and --video-only are mutually exclusive"
  else
    (* Validate URLs *)
    match validate_urls urlparse (urls a) with
    | Some stop => stop
    | None => Parsed a
    end.

(** [main] from its first line: [parse_arguments] runs inside the [try],
    so what it raises meets the same handlers. *)
Definition main_from_argv (env : environment)
    (urlparse : string → exception + string * string)
    (a : Namespace) (w : world) : Z * world :=
  match parse_arguments urlparse a with
  | Parsed args => main env args w
  | ParserError _ => (2, w)
  | ParserRaised e =>
      (EXIT_GENERAL_ERROR,
       add_stdout (nl +:+ "Unexpected error: " +:+ str_of_exception e) w)
  end.

(** ** [DownloadProgressHook]

    The hook's own state and what it writes to the standard output; the
    bar [tqdm] draws on the standard error is not modelled, only its total
    and its counter. *)

Module ProgressHook.

(** [d.get(key)] for a numeric entry of the progress dictionary: the key
    is absent, its value is [None], or it is a number of bytes. *)
Inductive entry :=
| Absent
| IsNone
| Num (bytes : Z).

Record progress := {
  status : string;
  total_bytes : entry;
  total_bytes_estimate : entry;
  downloaded_bytes : entry;
  _percent_str : option string;
  _speed_str : option string;
  _eta_str : option string;
}.

(** A [tqdm] bar: its [total] and its counter [n]. *)
Record bar := { bar_total : Z; bar_n : Z }.

Record hook := { hook_quiet : bool; pbar : option bar }.

(** [DownloadProgressHook(quiet)]. *)
Definition new (quiet_flag : bool) : hook :=
  {| hook_quiet := quiet_flag; pbar := None |}.

(** [a or b] for [a = d.get(key)] and [b = d.get(key', 0)]. *)
Definition total_of (d : progress) : entry :=
  match total_bytes d with
  | Num t => if t =? 0 then
               match total_bytes_estimate d with Absent => Num 0 | e => e end
             else Num t
  | _ => match total_bytes_estimate d with Absent => Num 0 | e => e end
  end.

(** [d.get(key, 0)]. *)
Definition get_or_zero (e : entry) : entry :=
  match e with Absent => Num 0 | _ => e end.

(** [bool(bar)], as [tqdm] defines it for a bar with a total. *)
Definition bar_truthy (b : bar) : bool := 0 <? bar_total b.

(** [hook(d)]: the exception raised if any, the hook afterwards, and the
    text written to the standard output.  [tqdm_installed] is whether the
    import at the top of the file succeeded. *)
Definition call (tqdm_installed : bool) (self : hook) (d : progress)
    : option exception * hook * list string :=
  if hook_quiet self then (None, self, [])
  else if String.eqb (status d) "downloading" then
    (* Extract progress information *)
    let total := total_of d in
    let downloaded := get_or_zero (downloaded_bytes d) in
    let fallback :=
      (* Fallback progress display *)
      (None, self,
       [String "013"%char "Progress: " +:+ default "N/A" (_percent_str d)
        +:+ " | Speed: " +:+ default "N/A" (_speed_str d)
        +:+ " | ETA: " +:+ default "N/A" (_eta_str d)]) in
    if tqdm_installed then
      match total with
      | Num t =>
          if 0 <? t then
            let b := match pbar self with
                     | Some b => b
                     | None => {| bar_total := t; bar_n := 0 |}
                     end in
            match downloaded with
            | Num k =>
                (None,
                 {| hook_quiet := hook_quiet self;
                    pbar := Some {| bar_total := bar_total b;
                                    bar_n := bar_n b + (k - bar_n b) |} |},
                 [])
            | _ =>
                (Some (OtherException
                         "TypeError: unsupported operand type(s) for -: 'NoneType' and 'int'"),
                 {| hook_quiet := hook_quiet self; pbar := Some b |}, [])
            end
          else fallback
      | _ =>
          (Some (OtherException
                   "TypeError: '>' not supported between instances of 'NoneType' and 'int'"),
           self, [])
      end
    else fallback
  else if String.eqb (status d) "finished" then
    match pbar self with
    | Some b =>
        if bar_truthy b
        then (None, {| hook_quiet := hook_quiet self; pbar := None |}, [])
        else if negb (hook_quiet self) then (None, self, [nl]) else (None, self, [])
    | None =>
        if negb (hook_quiet self) then (None, self, [nl]) else (None, self, [])
    end
  else (None, self, []).

(** The hook over the events of a download, going on after an event that
    raised (the state it left is the state the next event meets). *)
Definition feed (tqdm_installed : bool) (self : hook) (events : list progress) : hook :=
  foldl (λ h d, (call tqdm_installed h d).1.2) self events.

End ProgressHook.

(** ** More notions used in the statements *)

(** A computation that asks nothing of the engine and runs at most [k]
    processes. *)
Definition runs_at_most {A} (k : nat) (m : M A) : Prop :=
  ∀ w r w', m w = (r, w') →
    ∃ cmds, calls w' = calls w ++ (SubprocessRun <$> cmds) ∧ (length cmds ≤ k)%nat.

(** The URLs the engine was asked about, in order. *)
Definition engine_urls (log : list call) : list string :=
  omap (λ c, match c with ExtractInfo url _ _ => Some url | SubprocessRun _ => None end)
       log.

(** The command lines that were run, in order. *)
Definition commands_run (log : list call) : list (list string) :=
  omap (λ c, match c with SubprocessRun cmd => Some cmd | ExtractInfo _ _ _ => None end)
       log.

(** Two more stand-ins for ffmpeg: one that exits with status 0 and
    writes nothing, and one that cannot be started. *)
Module Stub.

Definition env (run : list string → gmap string string → process) : environment :=
  {| extract_info := Demo.engine;
     prepare_filename := λ _ _, inr "/out/clip.mp4";
     subprocess := run;
     called_process_error_str := Demo.error_text;
     mkdtemp := λ _, "/tmp/tmp8x3k";
     set_order := elements;
     render_formats := λ i, ["Title: " +:+ default "Unknown" (info_title i)] |}.

Definition silent : environment := env (λ _ files, Exited 0 files).

Definition missing : environment :=
  env (λ _ _, NotStarted (FileNotFoundError "[Errno 2] No such file or directory: 'ffmpeg'")).

(** ffmpeg answers the start-up probe and is gone when the remux is to
    be started. *)
Definition vanishing : environment :=
  env (λ cmd files,
         if bool_decide (cmd = FFMPEG_CHECK_CMD) then Exited 0 files
         else NotStarted
                (FileNotFoundError "[Errno 2] No such file or directory: 'ffmpeg'")).

(** One URL, with subtitles to be embedded. *)
Definition one_url : Namespace := Demo.request ["https://youtu.be/abc"] false false.

(** [--max-filesize 0]. *)
Definition cap_zero : Namespace :=
  {| urls := ["https://youtu.be/abc"]; output_dir := "/out"; format := None;
     audio_only := false; video_only := false;
     subtitles := false; sub_lang := "en"; embed_subs := false; merge := false;
     overwrite := false; quiet := false; progress := true;
     max_filesize := Some 0%float; simulate := false |}.

End Stub.

(** What holds of a progress hook however many events it has seen: a bar
    it holds has a positive total, and it holds one only with [tqdm]
    installed and when it is not quiet. *)
Definition hook_ok (t : bool) (h : ProgressHook.hook) : Prop :=
  ∀ b, ProgressHook.pbar h = Some b →
       0 < ProgressHook.bar_total b ∧ t = true ∧ ProgressHook.hook_quiet h = false.

(** * Properties *)

(** ** The model at work *)

Example with_suffix_replaces :
  with_suffix "/out/My_Video.webm" ".mp3" = Ok "/out/My_Video.mp3"
  ∧ with_suffix "/out/archive.tar.gz" "" = Ok "/out/archive.tar"
  ∧ with_suffix "/out/.hidden" ".mp3" = Ok "/out/.hidden.mp3"
  ∧ with_suffix "." ".mp3" = Raise (Exc (ValueError ". has an empty name")).
Proof. by vm_compute. Qed.

Example ffmpeg_cmd_two_tracks :
  ffmpeg_cmd false "/out/clip.mp4"
    [("en", "/out/clip.en.vtt"); ("fr", "/out/clip.fr.srt")] "/out/clip.temp.mp4"
  = ["ffmpeg"; "-i"; "/out/clip.mp4"; "-i"; "/out/clip.en.vtt"; "-i"; "/out/clip.fr.srt";
     "-map"; "0:v"; "-map"; "0:a"; "-map"; "1:s"; "-map"; "2:s";
     "-metadata:s:s:0"; "language=en"; "-metadata:s:s:1"; "language=fr";
     "-c"; "copy"; "-n"; "/out/clip.temp.mp4"].
Proof. by vm_compute. Qed.

(** A download of "clip" with captions embedded: the side-car file is
    consumed and the video replaced by the remuxed file. *)
Example demo_download_embeds :
  let r := download_video (Demo.env 0 0)
             (Demo.downloader (Demo.request Demo.three_urls false false) true)
             "https://youtu.be/abc" Demo.nothing in
  r.1 = Ok (Some "/out/clip.mp4")
  ∧ map_to_list (fs r.2) = [("/out/clip.mp4", "muxed")]
  ∧ stdout r.2 = [nl +:+ "Downloading: https://youtu.be/abc";
                  "Embedding 1 subtitle track(s)...";
                  "✓ Subtitles embedded successfully";
                  "✓ Downloaded: /out/clip.mp4"].
Proof. by vm_compute. Qed.

(** ** Strings and paths *)

Section Strings.

Lemma app_cons_str (x : ascii) (a b : string) : String x a +:+ b = String x (a +:+ b).
Proof. reflexivity. Qed.

Lemma app_nil_l_str (b : string) : "" +:+ b = b.
Proof. reflexivity. Qed.

Lemma app_assoc_str (a b c : string) : (a +:+ b) +:+ c = a +:+ (b +:+ c).
Proof. induction a as [|x a IH]; [done |]. rewrite !app_cons_str. by f_equal. Qed.

Lemma app_nil_r_str (a : string) : a +:+ "" = a.
Proof. induction a as [|x a IH]; [done |]. rewrite app_cons_str. by f_equal. Qed.

Lemma app_eq_nil_str (a b : string) : a +:+ b = "" → a = "" ∧ b = "".
Proof. destruct a; [done | discriminate]. Qed.

Lemma truthy_str_true (s : string) : truthy_str s = true ↔ s ≠ "".
Proof. destruct s; simpl; split; congruence. Qed.

Lemma contains_app (c : ascii) (a b : string) :
  contains c (a +:+ b) = contains c a || contains c b.
Proof.
  induction a as [|x a IH]; [done |].
  rewrite app_cons_str. simpl. rewrite IH. by rewrite orb_assoc.
Qed.

Lemma rpartition_None (c : ascii) (s : string) :
  rpartition c s = None ↔ contains c s = false.
Proof.
  induction s as [|x s IH]; simpl; [done |].
  destruct (rpartition c s) as [[b a]|].
  - split; [done |]. intros [_ H]%orb_false_iff. apply IH in H. done.
  - destruct (Ascii.eqb x c); simpl; [done |].
    split; [intros _; by apply IH | done].
Qed.

Lemma rpartition_Some (c : ascii) (s before after : string) :
  rpartition c s = Some (before, after) →
  s = before +:+ String c after ∧ contains c after = false.
Proof.
  revert before; induction s as [|x s IH]; intros before; simpl; [done |].
  destruct (rpartition c s) as [[b a]|] eqn:E.
  - intros [= <- <-]. destruct (IH b eq_refl) as [-> ?]. done.
  - destruct (Ascii.eqb_spec x c) as [->|]; [|done].
    intros [= <- <-]. split; [done |]. by apply rpartition_None.
Qed.

Lemma rpartition_app (c : ascii) (a b : string) :
  contains c b = false → rpartition c (a +:+ String c b) = Some (a, b).
Proof.
  intros Hb. induction a as [|x a IH].
  - simpl. apply rpartition_None in Hb. rewrite Hb. by rewrite Ascii.eqb_refl.
  - rewrite app_cons_str. simpl. by rewrite IH.
Qed.

(** What [split] gives: the name holds no separator, and the path is the
    directory prefix followed by the name. *)
Lemma split_spec (p d n : string) :
  split p = (d, n) →
  contains "/" n = false ∧
  (n ≠ "" → p = d +:+ n ∧ (d = "" ∨ ∃ d', d = d' +:+ "/")).
Proof.
  unfold split. destruct (String.eqb_spec p ".") as [->|Hp].
  - intros [= <- <-]. done.
  - destruct (rpartition "/" p) as [[d' n']|] eqn:E.
    + intros [= <- <-]. apply rpartition_Some in E as [-> Hn].
      split; [done |]. intros _. split; [rewrite app_assoc_str; reflexivity | right; by exists d'].
    + intros [= <- <-]. apply rpartition_None in E.
      split; [done |]. intros _. split; [done | by left].
Qed.

(** What [stem_suffix] gives: a non-empty suffix is a dot followed by a
    non-empty text without dots, after a non-empty stem. *)
Lemma stem_suffix_spec (n st sx : string) :
  stem_suffix n = (st, sx) →
  n = st +:+ sx ∧ (n ≠ "" → st ≠ "") ∧
  (sx = "" ∨ ∃ e, sx = "." +:+ e ∧ e ≠ "" ∧ contains "." e = false).
Proof.
  unfold stem_suffix. destruct (rpartition "." n) as [[s e]|] eqn:E.
  - apply rpartition_Some in E as [-> He].
    destruct (truthy_str s && truthy_str e) eqn:T.
    + intros [= <- <-]. apply andb_true_iff in T as [Ts Te].
      apply truthy_str_true in Ts, Te. split; [done |]. split; [done |].
      right. by exists e.
    + intros [= <- <-]. rewrite app_nil_r_str. split; [done |]. split; [done |]. by left.
  - intros [= <- <-]. rewrite app_nil_r_str. split; [done |]. split; [done |]. by left.
Qed.

Lemma stem_suffix_app (st e : string) :
  st ≠ "" → e ≠ "" → contains "." e = false →
  stem_suffix (st +:+ "." +:+ e) = (st, "." +:+ e).
Proof.
  intros Hs He Hd. unfold stem_suffix.
  change (st +:+ "." +:+ e) with (st +:+ String "." e).
  rewrite rpartition_app by done.
  apply truthy_str_true in Hs, He. by rewrite Hs, He.
Qed.

(** The name of [d ++ n] is [n], for a directory prefix [d] as [split]
    gives them and a non-empty [n] without separators. *)
Lemma name_app (d n : string) :
  (d = "" ∨ ∃ d', d = d' +:+ "/") → contains "/" n = false → n ≠ "." →
  n ≠ "" → split (d +:+ n) = (d, n).
Proof.
  intros Hd Hn Hdot Hne. unfold split.
  destruct (String.eqb_spec (d +:+ n) ".") as [E|_].
  - exfalso. destruct Hd as [->|[d' ->]]; [done |].
    rewrite app_assoc_str in E. destruct d' as [|x d']; [|].
    + simpl in E. discriminate.
    + rewrite app_cons_str in E. injection E as _ E.
      apply app_eq_nil_str in E as [_ E]. discriminate.
  - destruct Hd as [->|[d' ->]].
    + rewrite app_nil_l_str. apply rpartition_None in Hn. by rewrite Hn.
    + rewrite app_assoc_str. change ("/" +:+ n) with (String "/" n).
      by rewrite rpartition_app.
Qed.

End Strings.

Section Paths.

Lemma length_app_str (a b : string) :
  String.length (a +:+ b) = (String.length a + String.length b)%nat.
Proof. induction a as [|x a IH]; [done |]. rewrite app_cons_str. simpl. by rewrite IH. Qed.

Lemma path_parts (p : string) :
  name p ≠ "" → ∃ d st sx, parts p d st sx.
Proof.
  unfold name. destruct (split p) as [d n] eqn:Es. simpl. intros Hn.
  destruct (stem_suffix n) as [st sx] eqn:En.
  apply split_spec in Es as Hs. destruct Hs as [Hsep [Hp Hd]]; [done |].
  apply stem_suffix_spec in En as He. destruct He as [-> [Hst Hsx]].
  rewrite contains_app in Hsep. apply orb_false_iff in Hsep as [? ?].
  exists d, st, sx. split; auto.
Qed.

Lemma parts_name p d st sx : parts p d st sx → name p = st +:+ sx.
Proof. intros H. unfold name. by rewrite (parts_split _ _ _ _ H). Qed.

Lemma parts_name_ne p d st sx : parts p d st sx → name p ≠ "".
Proof.
  intros H. rewrite (parts_name _ _ _ _ H). intros [E _]%app_eq_nil_str.
  by apply (parts_stem_ne _ _ _ _ H).
Qed.

Lemma parts_suffix_eq p d st sx : parts p d st sx → suffix p = sx.
Proof.
  intros H. unfold suffix. rewrite (parts_name _ _ _ _ H).
  by rewrite (parts_stem _ _ _ _ H).
Qed.

(** [with_suffix] on a path with a name, for a suffix that passes the
    validity tests. *)
Lemma with_suffix_parts p d st sx sfx :
  parts p d st sx →
  contains "/" sfx = false →
  (truthy_str sfx && negb (String.prefix "." sfx)) || String.eqb sfx "." = false →
  with_suffix p sfx = Ok (d +:+ st +:+ sfx).
Proof.
  intros H Hsep Hok. unfold with_suffix. rewrite Hsep, Hok.
  rewrite (parts_split _ _ _ _ H).
  assert (Hn : truthy_str (st +:+ sx) = true).
  { apply truthy_str_true. intros [E _]%app_eq_nil_str.
    by apply (parts_stem_ne _ _ _ _ H). }
  rewrite Hn. simpl. by rewrite (parts_stem _ _ _ _ H).
Qed.

Lemma with_suffix_empty p d st sx :
  parts p d st sx → with_suffix p "" = Ok (d +:+ st).
Proof.
  intros H. rewrite (with_suffix_parts p d st sx) by done.
  by rewrite app_nil_r_str.
Qed.

Lemma with_suffix_mp3 p d st sx :
  parts p d st sx → with_suffix p ".mp3" = Ok (d +:+ st +:+ ".mp3").
Proof. intros H. by rewrite (with_suffix_parts p d st sx). Qed.

Lemma with_suffix_temp p d st sx :
  parts p d st sx →
  with_suffix p (".temp" +:+ suffix p) = Ok (d +:+ st +:+ ".temp" +:+ sx).
Proof.
  intros H. rewrite (parts_suffix_eq _ _ _ _ H).
  rewrite (with_suffix_parts p d st sx); [done | done | | done].
  change (".temp" +:+ sx) with ("." +:+ "temp" +:+ sx).
  rewrite !contains_app, (parts_suffix_sep _ _ _ _ H). done.
Qed.

(** The path [with_suffix] gives has the new suffix as its suffix. *)
Lemma suffix_with_mp3 p d st sx :
  parts p d st sx → suffix (d +:+ st +:+ ".mp3") = ".mp3".
Proof.
  intros H. unfold suffix, name.
  rewrite name_app.
  - simpl. change (st +:+ ".mp3") with (st +:+ "." +:+ "mp3").
    rewrite (stem_suffix_app st "mp3"); [done | | done | done].
    apply (parts_stem_ne _ _ _ _ H).
  - apply (parts_dir _ _ _ _ H).
  - rewrite contains_app, (parts_stem_sep _ _ _ _ H). done.
  - pose proof (parts_stem_ne _ _ _ _ H). destruct st as [|x st]; [done |].
    rewrite app_cons_str. intros [= _ E]. apply app_eq_nil_str in E as [_ E]. done.
  - intros [E _]%app_eq_nil_str. by apply (parts_stem_ne _ _ _ _ H).
Qed.

End Paths.

Section Sidecars.

Lemma supported_ext (ext : string) :
  ext ∈ SUPPORTED_SUBTITLE_FORMATS →
  ∃ x, ext = "." +:+ x ∧ x ≠ "" ∧ contains "." x = false.
Proof.
  unfold SUPPORTED_SUBTITLE_FORMATS. rewrite !elem_of_cons, elem_of_nil.
  intros [->|[->|[->|[]]]]; [by exists "vtt" | by exists "srt" | by exists "ass"].
Qed.

Lemma sub_file_path_eq (base lang ext : string) :
  sub_file_path base lang ext = base +:+ "." +:+ lang +:+ ext.
Proof.
  unfold sub_file_path, Path.
  destruct (base +:+ "." +:+ lang +:+ ext) eqn:E; [|done].
  apply app_eq_nil_str in E as [_ E]. discriminate.
Qed.

(** Two side-car files of one video are the same file only for the same
    language. *)
Lemma sub_file_path_inj (base l1 e1 l2 e2 : string) :
  e1 ∈ SUPPORTED_SUBTITLE_FORMATS → e2 ∈ SUPPORTED_SUBTITLE_FORMATS →
  sub_file_path base l1 e1 = sub_file_path base l2 e2 → l1 = l2.
Proof.
  intros (x1 & -> & _ & H1)%supported_ext (x2 & -> & _ & H2)%supported_ext.
  rewrite !sub_file_path_eq. intros E%(inj _)%(inj _).
  assert (R : rpartition "." (l1 +:+ String "." x1)
              = rpartition "." (l2 +:+ String "." x2)) by (by f_equal).
  rewrite !rpartition_app in R by done. congruence.
Qed.

Lemma sub_ne_temp (p d st sx lang ext : string) :
  parts p d st sx → sx ∉ SUPPORTED_SUBTITLE_FORMATS →
  ext ∈ SUPPORTED_SUBTITLE_FORMATS →
  sub_file_path (d +:+ st) lang ext ≠ d +:+ st +:+ ".temp" +:+ sx.
Proof.
  intros H Hsx Hext. destruct (supported_ext _ Hext) as (x & -> & _ & Hx).
  rewrite sub_file_path_eq, app_assoc_str. intros E%(inj _)%(inj _).
  change (".temp" +:+ sx) with ("." +:+ "temp" +:+ sx) in E.
  apply (inj _) in E.
  assert (R : rpartition "." (lang +:+ String "." x) = rpartition "." ("temp" +:+ sx))
    by (by f_equal).
  rewrite rpartition_app in R by done.
  destruct (parts_suffix _ _ _ _ H) as [->|(e & -> & _ & He)]; [done |].
  change ("temp" +:+ "." +:+ e) with ("temp" +:+ String "." e) in R.
  rewrite rpartition_app in R by done. injection R as _ <-. done.
Qed.

Lemma sub_ne_video (p d st sx lang ext : string) :
  parts p d st sx → ext ∈ SUPPORTED_SUBTITLE_FORMATS →
  sub_file_path (d +:+ st) lang ext ≠ p.
Proof.
  intros H (x & -> & _ & Hx)%supported_ext.
  rewrite sub_file_path_eq, app_assoc_str, (parts_path _ _ _ _ H).
  intros E%(inj _)%(inj _).
  destruct (parts_suffix _ _ _ _ H) as [->|(e & -> & _ & He)]; [done |].
  apply (inj _) in E. subst e.
  rewrite contains_app in He. simpl in He. by rewrite orb_true_r in He.
Qed.

Lemma temp_ne_video (p d st sx : string) :
  parts p d st sx → d +:+ st +:+ ".temp" +:+ sx ≠ p.
Proof.
  intros H E. rewrite (parts_path _ _ _ _ H) in E. apply (inj _), (inj _) in E.
  apply (f_equal String.length) in E. rewrite length_app_str in E. simpl in E. lia.
Qed.

(** The inner loop finds the first supported extension whose side-car
    file exists. *)
Lemma first_existing_Some files base lang exts sub :
  first_existing files base lang exts = Some sub ↔
  ∃ pre ext post, exts = pre ++ ext :: post ∧ sub = sub_file_path base lang ext ∧
    is_Some (files !! sub) ∧
    ∀ e, e ∈ pre → files !! sub_file_path base lang e = None.
Proof.
  induction exts as [|e0 exts IH]; simpl.
  - split; [done |]. intros (pre & ext & post & E & _). by destruct pre.
  - case_bool_decide as Hex.
    + split.
      * intros [= <-]. exists [], e0, exts. split_and!; [done | done | done |].
        intros e. by rewrite elem_of_nil.
      * intros (pre & ext & post & E & -> & Hs & Hpre). destruct pre as [|e1 pre].
        -- by injection E as -> _.
        -- injection E as <- _. specialize (Hpre e0 (list_elem_of_here _ _)).
           rewrite Hpre in Hex. by destruct Hex.
    + rewrite IH. split.
      * intros (pre & ext & post & -> & -> & Hs & Hpre).
        exists (e0 :: pre), ext, post. split_and!; [done | done | done |].
        intros e [->|?]%elem_of_cons; [|by apply Hpre].
        by apply eq_None_not_Some.
      * intros (pre & ext & post & E & -> & Hs & Hpre). destruct pre as [|e1 pre].
        -- injection E as <- _. done.
        -- injection E as <- ->. exists pre, ext, post.
           split_and!; [done | done | done |].
           intros e He. apply Hpre. by apply list_elem_of_further.
Qed.

Lemma first_existing_None files base lang exts :
  first_existing files base lang exts = None ↔
  ∀ e, e ∈ exts → files !! sub_file_path base lang e = None.
Proof.
  induction exts as [|e0 exts IH]; simpl.
  - split; [|done]. intros _ e. by rewrite elem_of_nil.
  - case_bool_decide as Hex.
    + split; [done |]. intros H. specialize (H e0 (list_elem_of_here _ _)).
      rewrite H in Hex. by destruct Hex.
    + rewrite IH. split.
      * intros H e [->|?]%elem_of_cons; [by apply eq_None_not_Some | by apply H].
      * intros H e He. apply H. by apply list_elem_of_further.
Qed.

(** The outer loop, as a filtering map over the languages. *)
Lemma find_subtitle_files_omap files base langs :
  find_subtitle_files files base langs
  = omap (λ lang, (lang,.) <$> first_existing files base lang SUPPORTED_SUBTITLE_FORMATS)
         langs.
Proof.
  unfold find_subtitle_files. generalize SUPPORTED_SUBTITLE_FORMATS. intros exts.
  enough (G : ∀ acc, foldl (λ subtitle_files lang,
             match first_existing files base lang exts with
             | Some sub_file => subtitle_files ++ [(lang, sub_file)]
             | None => subtitle_files
             end) acc langs
           = acc ++ omap (λ lang, (lang,.) <$> first_existing files base lang exts) langs)
    by apply (G []).
  induction langs as [|l langs IH]; intros acc; simpl.
  - by rewrite app_nil_r.
  - rewrite IH. destruct (first_existing files base l exts); simpl.
    + by rewrite <- app_assoc.
    + done.
Qed.

Lemma elem_of_find_subtitle_files files base langs lang sub :
  (lang, sub) ∈ find_subtitle_files files base langs ↔
  lang ∈ langs ∧ first_existing files base lang SUPPORTED_SUBTITLE_FORMATS = Some sub.
Proof.
  rewrite find_subtitle_files_omap, list_elem_of_omap. split.
  - intros (l & Hl & E). destruct (first_existing files base l _) eqn:F; [|done].
    simpl in E. by injection E as -> ->.
  - intros [Hl E]. exists lang. by rewrite E.
Qed.

Lemma find_subtitle_files_fst_sublist files base langs :
  sublist (find_subtitle_files files base langs).*1 langs.
Proof.
  rewrite find_subtitle_files_omap. generalize SUPPORTED_SUBTITLE_FORMATS. intros exts.
  induction langs as [|l langs IH]; simpl; [done |].
  destruct (first_existing files base l exts); simpl.
  - by apply sublist_skip.
  - by apply sublist_cons.
Qed.

End Sidecars.

Section Embedder.

Context (env : environment).

Lemma with_suffix_empty_inv video base_path :
  with_suffix video "" = Ok base_path →
  ∃ d st sx, parts video d st sx ∧ base_path = d +:+ st.
Proof.
  intros H. assert (Hn : name video ≠ "").
  { intros Hn. unfold with_suffix, name in *. simpl in H.
    destruct (split video) as [d n]. simpl in Hn. subst n. done. }
  destruct (path_parts _ Hn) as (d & st & sx & Hp). exists d, st, sx.
  split; [done |]. rewrite (with_suffix_empty _ _ _ _ Hp) in H. congruence.
Qed.

(** The world after the Embedder's discovery found nothing. *)
Lemma embed_no_subtitle_files self video info w base_path :
  is_Some (fs w !! video) →
  with_suffix video "" = Ok base_path →
  find_subtitle_files (fs w) base_path (caption_languages env info) = [] →
  _embed_subtitles env self video info w
  = (Ok video, add_stdout "No subtitle files found to embed" w).
Proof.
  intros Hv Hp Hnone. unfold _embed_subtitles, bind, path_exists.
  rewrite bool_decide_eq_true_2 by done. simpl.
  unfold lift. rewrite Hp. unfold get_world.
  rewrite Hnone. done.
Qed.

(** The world after a remux that exited with a non-zero status. *)
Lemma embed_remux_failed self video info w base_path temp_output rc files :
  let subtitle_files :=
    find_subtitle_files (fs w) base_path (caption_languages env info) in
  let cmd := ffmpeg_cmd (overwrite (args self)) video subtitle_files temp_output in
  is_Some (fs w !! video) →
  with_suffix video "" = Ok base_path →
  with_suffix video (".temp" +:+ suffix video) = Ok temp_output →
  subtitle_files ≠ [] →
  subprocess env cmd (fs w) = Exited rc files →
  rc ≠ 0 →
  _embed_subtitles env self video info w
  = (Ok video,
     World (delete temp_output files)
           (stdout w ++ ["Embedding " +:+ str_of_nat (length subtitle_files)
                           +:+ " subtitle track(s)..."]
                     ++ ["Warning: Failed to embed subtitles: "
                           +:+ called_process_error_str env cmd rc])
           (calls w ++ [SubprocessRun cmd])).
Proof.
  intros found cmd Hv Hb Ht Hne Hrun Hrc.
  unfold _embed_subtitles, bind, path_exists.
  rewrite bool_decide_eq_true_2 by done. simpl.
  unfold lift. rewrite Hb. unfold get_world. fold found.
  destruct found as [|ls rest] eqn:Ef; [done |].
  rewrite Ht. fold cmd.
  unfold try_except, subprocess_run. simpl. rewrite Hrun. simpl.
  apply Z.eqb_neq in Hrc. rewrite Hrc. simpl.
  unfold ret, unlink, add_stdout, add_call, set_fs; simpl.
  case_bool_decide as Hleft; simpl.
  - destruct Hleft as [c Hc]. rewrite Hc. simpl. by rewrite <- app_assoc.
  - apply eq_None_not_Some in Hleft. rewrite (delete_id _ _ Hleft).
    by rewrite <- app_assoc.
Qed.

End Embedder.

(** ** The exceptions a computation can raise, and the values it can return *)

Section Computations.

Context (env : environment).

Lemma roe_ret {A} (a : A) : raises_only_exceptions (ret a).
Proof. intros w e w' [=]. Qed.

Lemma roe_print s : raises_only_exceptions (print s).
Proof. intros w e w' [=]. Qed.

Lemma roe_get_world : raises_only_exceptions get_world.
Proof. intros w e w' [=]. Qed.

Lemma roe_path_exists p : raises_only_exceptions (path_exists p).
Proof. intros w e w' [=]. Qed.

Lemma roe_bind {A B} (m : M A) (k : A → M B) :
  raises_only_exceptions m → (∀ a, raises_only_exceptions (k a)) →
  raises_only_exceptions (bind m k).
Proof.
  intros Hm Hk w e w'. unfold bind. destruct (m w) as [[a|e1] w1] eqn:E.
  - apply Hk.
  - intros [= <- <-]. by apply (Hm _ _ _ E).
Qed.

Lemma roe_try_except {A} (body : M A) handler :
  raises_only_exceptions body →
  (∀ e h, handler e = Some h → raises_only_exceptions h) →
  raises_only_exceptions (try_except body handler).
Proof.
  intros Hb Hh w e w'. unfold try_except.
  destruct (body w) as [[a|e1] w1] eqn:E; [done |].
  destruct (Hb _ _ _ E) as [x ->]. destruct (handler x) as [h|] eqn:Eh.
  - by apply (Hh _ _ Eh).
  - intros [= <- <-]. by exists x.
Qed.

Lemma roe_lift {A} (o : outcome A) :
  (∀ e, o = Raise e → ∃ x, e = Exc x) → raises_only_exceptions (lift o).
Proof. intros H w e w' [= -> <-]. by apply H. Qed.

Lemma with_suffix_raises p sfx e : with_suffix p sfx = Raise e → ∃ x, e = Exc x.
Proof.
  unfold with_suffix. repeat case_match; intros [=]; subst; eauto.
Qed.

Lemma roe_unlink p : raises_only_exceptions (unlink p).
Proof. intros w e w'. unfold unlink. case_match; intros [=]; subst; eauto. Qed.

Lemma roe_rename p q : raises_only_exceptions (rename p q).
Proof. intros w e w'. unfold rename. case_match; intros [=]; subst; eauto. Qed.

Lemma roe_for_each {A} (l : list A) body :
  (∀ a, raises_only_exceptions (body a)) → raises_only_exceptions (for_each l body).
Proof.
  intros Hb. induction l as [|a l IH]; simpl; [apply roe_ret |].
  apply roe_bind; [apply Hb | done].
Qed.

Lemma roe_subprocess_run cmd check :
  raises_only_exceptions (subprocess_run env cmd check).
Proof.
  intros w e w'. unfold subprocess_run.
  repeat case_match; intros [=]; subst; eauto.
Qed.

Lemma roe_extract_info url opts download :
  raises_only_exceptions (ydl_extract_info env url opts download).
Proof.
  intros w e w'. unfold ydl_extract_info.
  repeat case_match; intros [=]; subst; eauto.
Qed.

Lemma roe_prepare_filename opts info :
  raises_only_exceptions (ydl_prepare_filename env opts info).
Proof. apply roe_lift. intros e. case_match; intros [=]; subst; eauto. Qed.

Lemma roe_if {A} (b : bool) (m1 m2 : M A) :
  raises_only_exceptions m1 → raises_only_exceptions m2 →
  raises_only_exceptions (if b then m1 else m2).
Proof. by destruct b. Qed.

Lemma roe_embed_subtitles self video info :
  raises_only_exceptions (_embed_subtitles env self video info).
Proof.
  unfold _embed_subtitles.
  apply roe_bind; [apply roe_path_exists | intros present].
  apply roe_if.
  { apply roe_bind; [apply roe_print | intros _; apply roe_ret]. }
  apply roe_bind; [apply roe_lift, with_suffix_raises | intros base_path].
  apply roe_bind; [apply roe_get_world | intros w0].
  destruct (find_subtitle_files _ _ _) as [|ls rest].
  { apply roe_bind; [apply roe_print | intros _; apply roe_ret]. }
  apply roe_bind; [apply roe_print | intros _].
  apply roe_bind; [apply roe_lift, with_suffix_raises | intros temp_output].
  apply roe_bind; [| intros _; apply roe_ret].
  apply roe_try_except.
  - apply roe_bind; [apply roe_subprocess_run | intros _].
    apply roe_bind; [apply roe_path_exists | intros produced].
    apply roe_if; [| apply roe_ret].
    apply roe_bind; [apply roe_unlink | intros _].
    apply roe_bind; [apply roe_rename | intros _].
    apply roe_bind; [apply roe_print | intros _].
    apply roe_for_each. intros a. apply roe_unlink.
  - intros e h. destruct e; intros [= <-].
    apply roe_bind; [apply roe_print | intros _].
    apply roe_bind; [apply roe_path_exists | intros leftover].
    apply roe_if; [apply roe_unlink | apply roe_ret].
Qed.

Lemma ro_ret {A} (v : A) : returns_only v (ret v).
Proof. by intros w r w' [= <- _]. Qed.

Lemma ro_bind {A B} (v : B) (m : M A) (k : A → M B) :
  (∀ a, returns_only v (k a)) → returns_only v (bind m k).
Proof.
  intros Hk w r w'. unfold bind. destruct (m w) as [[a|e] w1]; [apply Hk | done].
Qed.

Lemma ro_if {A} (v : A) (b : bool) (m1 m2 : M A) :
  returns_only v m1 → returns_only v m2 → returns_only v (if b then m1 else m2).
Proof. by destruct b. Qed.

(** Whatever branch the Embedder takes, a path it returns is the path it
    was given. *)
Lemma ro_embed_subtitles self video info :
  returns_only video (_embed_subtitles env self video info).
Proof.
  unfold _embed_subtitles.
  apply ro_bind; intros present. apply ro_if.
  { apply ro_bind; intros _. apply ro_ret. }
  apply ro_bind; intros base_path. apply ro_bind; intros w0.
  destruct (find_subtitle_files _ _ _) as [|ls rest].
  { apply ro_bind; intros _. apply ro_ret. }
  apply ro_bind; intros _. apply ro_bind; intros temp_output.
  apply ro_bind; intros _. apply ro_ret.
Qed.

End Computations.

Section EmbedderTotal.

Context (env : environment).

Lemma last_ffmpeg_cmd flag video subtitle_files temp_output :
  last (ffmpeg_cmd flag video subtitle_files temp_output) = Some temp_output.
Proof.
  unfold ffmpeg_cmd.
  change [if flag then "-y" else "-n"; temp_output]
    with ([if flag then "-y" else "-n"] ++ [temp_output]).
  rewrite (app_assoc _ _ [temp_output]). apply last_snoc.
Qed.

(** What the discovery loop returns: existing side-car files, named after
    the language and a supported extension. *)
Lemma found_sub_file files base langs lang sub :
  (lang, sub) ∈ find_subtitle_files files base langs →
  lang ∈ langs ∧ is_Some (files !! sub) ∧
  ∃ ext, ext ∈ SUPPORTED_SUBTITLE_FORMATS ∧ sub = sub_file_path base lang ext.
Proof.
  intros [Hl (pre & ext & post & E & -> & Hs & _)%first_existing_Some]%elem_of_find_subtitle_files.
  split; [done |]. split; [done |]. exists ext. split; [|done].
  rewrite E. apply elem_of_app. right. apply list_elem_of_here.
Qed.

Lemma found_NoDup_fst files base langs :
  NoDup langs → NoDup (find_subtitle_files files base langs).*1.
Proof. intros H. eapply sublist_NoDup; [done | apply find_subtitle_files_fst_sublist]. Qed.

Lemma found_NoDup_snd files base langs :
  NoDup langs → NoDup (find_subtitle_files files base langs).*2.
Proof.
  intros Hnd. pose proof (found_NoDup_fst files base langs Hnd) as Hfst.
  assert (Hin : ∀ lang sub, (lang, sub) ∈ find_subtitle_files files base langs →
            ∃ ext, ext ∈ SUPPORTED_SUBTITLE_FORMATS ∧ sub = sub_file_path base lang ext).
  { intros lang sub H. by apply found_sub_file in H as (_ & _ & H). }
  induction (find_subtitle_files files base langs) as [|[l s] found IH]; simpl.
  { constructor. }
  simpl in Hfst. apply NoDup_cons in Hfst as [Hl Hfst].
  apply NoDup_cons. split.
  - intros ([l' s'] & E & Hin')%list_elem_of_fmap. simpl in E. subst s'.
    destruct (Hin l s) as (e1 & He1 & E1); [apply list_elem_of_here |].
    destruct (Hin l' s) as (e2 & He2 & E2); [by apply list_elem_of_further |].
    rewrite E1 in E2. apply sub_file_path_inj in E2; [|done..]. subst l'.
    apply Hl. apply list_elem_of_fmap. by exists (l, s).
  - apply IH; [done |]. intros lang sub H. apply Hin. by apply list_elem_of_further.
Qed.

(** The clean-up loop succeeds on distinct files that are all present. *)
Lemma for_each_unlink_ok (subs : list (string * string)) (w : world) :
  NoDup subs.*2 → (∀ ls, ls ∈ subs → is_Some (fs w !! ls.2)) →
  ∃ w', for_each subs (λ ls, unlink ls.2) w = (Ok (), w').
Proof.
  revert w. induction subs as [|[l s] subs IH]; intros w Hnd Hall; simpl.
  { by eexists. }
  simpl in Hnd. apply NoDup_cons in Hnd as [Hs Hnd].
  unfold bind, unlink at 1. simpl.
  destruct (Hall (l, s)) as [c Hc]; [apply list_elem_of_here |]. simpl in Hc.
  rewrite Hc. apply IH; [done |].
  intros ls Hls. simpl. rewrite lookup_delete_ne.
  - apply Hall. by apply list_elem_of_further.
  - intros ->. apply Hs. apply list_elem_of_fmap. by exists ls.
Qed.

(** The Embedder returns the path it was given whenever the video has a
    name, its container is not a caption format, and the remux process
    starts and writes nowhere but to its output file. *)
Lemma embed_subtitles_total self video info w :
  name video ≠ "" →
  suffix video ∉ SUPPORTED_SUBTITLE_FORMATS →
  NoDup (caption_languages env info) →
  (∀ cmd, ∃ rc files, subprocess env cmd (fs w) = Exited rc files ∧
            ∀ p, last cmd ≠ Some p → files !! p = fs w !! p) →
  ∃ w', _embed_subtitles env self video info w = (Ok video, w').
Proof.
  intros Hn Hsx Hnd Hrun.
  destruct (decide (is_Some (fs w !! video))) as [Hv|Hv]; cycle 1.
  { unfold _embed_subtitles, bind, path_exists.
    rewrite bool_decide_eq_false_2 by done. simpl. by eexists. }
  destruct (path_parts _ Hn) as (d & st & sx & Hp).
  pose proof (with_suffix_empty _ _ _ _ Hp) as Hb.
  pose proof (with_suffix_temp _ _ _ _ Hp) as Ht.
  rewrite (parts_suffix_eq _ _ _ _ Hp) in Hsx.
  set (base := d +:+ st) in *. set (temp := d +:+ st +:+ ".temp" +:+ sx) in *.
  destruct (find_subtitle_files (fs w) base (caption_languages env info))
    as [|ls rest] eqn:Ef.
  { rewrite (embed_no_subtitle_files env self video info w base) by done. by eexists. }
  set (cmd := ffmpeg_cmd (overwrite (args self)) video (ls :: rest) temp).
  destruct (Hrun cmd) as (rc & files & Hcmd & Hkeep).
  assert (Hkeep' : ∀ p, p ≠ temp → files !! p = fs w !! p).
  { intros p Hpt. apply Hkeep. unfold cmd. rewrite last_ffmpeg_cmd. congruence. }
  destruct (decide (rc = 0)) as [->|Hrc]; cycle 1.
  { rewrite (embed_remux_failed env self video info w base temp rc files);
      rewrite ?Ef; try done. by eexists. }
  unfold _embed_subtitles, bind, path_exists.
  rewrite bool_decide_eq_true_2 by done. simpl.
  unfold lift. rewrite Hb. unfold get_world. rewrite Ef. rewrite Ht. fold cmd.
  unfold try_except, subprocess_run. simpl. rewrite Hcmd. simpl.
  case_bool_decide as Hprod; simpl; [|by eexists].
  destruct Hprod as [content Hcontent].
  unfold unlink at 1. simpl.
  assert (Hvt : temp ≠ video) by apply (temp_ne_video _ _ _ _ Hp).
  rewrite (Hkeep' video) by done. destruct Hv as [cv Hv]. rewrite Hv. simpl.
  unfold rename. simpl. rewrite lookup_delete_ne by done. rewrite Hcontent. simpl.
  match goal with |- context [bind (unlink ls.2) ?k ?w0] =>
    change (bind (unlink ls.2) k w0)
      with (for_each (ls :: rest) (λ ls0 : string * string, unlink ls0.2) w0);
    destruct (for_each_unlink_ok (ls :: rest) w0) as [w1 Hw1] end.
  - rewrite <- Ef. by apply found_NoDup_snd.
  - intros [lang sub] Hin. simpl. rewrite <- Ef in Hin.
    apply found_sub_file in Hin as (_ & Hsome & ext & Hext & ->).
    assert (sub_file_path base lang ext ≠ video) by (by apply (sub_ne_video _ _ _ sx)).
    assert (sub_file_path base lang ext ≠ temp) by (by apply (sub_ne_temp video)).
    rewrite lookup_insert_ne by done. rewrite !lookup_delete_ne by done.
    by rewrite Hkeep'.
  - rewrite Hw1. by eexists.
Qed.

End EmbedderTotal.

(** ** One download *)

Section Download.

Context (env : environment).

Lemma bind_Ok {A B} (m : M A) (k : A → M B) w b w' :
  bind m k w = (Ok b, w') → ∃ a w1, m w = (Ok a, w1) ∧ k a w1 = (Ok b, w').
Proof.
  unfold bind. destruct (m w) as [[a|e] w1]; [|done]. intros H. by exists a, w1.
Qed.

Lemma with_suffix_Ok_nonempty p sfx q : with_suffix p sfx = Ok q → q ≠ "".
Proof.
  unfold with_suffix. repeat case_match; try done. intros [= <-].
  destruct (stem_suffix s0) as [st sx] eqn:Es. simpl.
  apply stem_suffix_spec in Es as (_ & Hst & _).
  intros [_ [E _]%app_eq_nil_str]%app_eq_nil_str.
  apply Hst; [|done]. by destruct s0.
Qed.

Lemma Path_nonempty s : Path s ≠ "".
Proof. by destruct s. Qed.

Lemma expected_output_path_nonempty self filename p :
  expected_output_path self filename = Ok p → p ≠ "".
Proof.
  unfold expected_output_path. case_match.
  - apply with_suffix_Ok_nonempty.
  - intros [= <-]. apply Path_nonempty.
Qed.

Lemma roe_download_attempt self url opts :
  raises_only_exceptions (download_attempt env self url opts).
Proof.
  unfold download_attempt.
  apply roe_bind; [apply roe_if; [apply roe_print | apply roe_ret] | intros _].
  apply roe_bind; [apply roe_extract_info | intros info].
  apply roe_if.
  - apply roe_bind; [apply roe_print | intros _].
    apply roe_bind; [apply roe_print | intros _].
    apply roe_bind; [| intros selector].
    { apply roe_lift. unfold getitem_str. intros e.
      repeat case_match; intros [=]; subst; eauto. }
    apply roe_bind; [apply roe_print | intros _].
    apply roe_bind; [apply roe_print | intros _]. apply roe_ret.
  - apply roe_bind; [apply roe_prepare_filename | intros filename].
    apply roe_bind; [| intros output_path].
    { apply roe_lift. unfold expected_output_path. intros e.
      case_match; [apply with_suffix_raises | done]. }
    apply roe_bind; [apply roe_if; [apply roe_embed_subtitles | apply roe_ret] |].
    intros output_path'.
    apply roe_bind; [apply roe_path_exists | intros present].
    apply roe_if; (apply roe_bind; [apply roe_print | intros _; apply roe_ret]).
Qed.

(** A path the attempt returns is the expected output path, which the
    Embedder left as it was; it is never the empty string. *)
Lemma download_attempt_Some self url opts w p w' :
  download_attempt env self url opts w = (Ok (Some p), w') →
  p ≠ "" ∧ ∃ info filename,
    prepare_filename env opts info = inr filename ∧
    expected_output_path self filename = Ok p.
Proof.
  unfold download_attempt.
  intros (_ & w1 & _ & H)%bind_Ok. apply bind_Ok in H as (info & w2 & _ & H).
  destruct (simulate (args self)).
  { apply bind_Ok in H as (_ & ? & _ & H). apply bind_Ok in H as (_ & ? & _ & H).
    apply bind_Ok in H as (? & ? & _ & H). apply bind_Ok in H as (_ & ? & _ & H).
    apply bind_Ok in H as (_ & ? & _ & H). done. }
  apply bind_Ok in H as (filename & w3 & Hf & H).
  apply bind_Ok in H as (out & w4 & Ho & H).
  apply bind_Ok in H as (out' & w5 & He & H).
  apply bind_Ok in H as (present & w6 & _ & H).
  assert (out' = out) as ->.
  { destruct (_ && _ && _).
    - by apply ro_embed_subtitles in He.
    - by injection He as ->. }
  assert (p = out) as ->.
  { destruct present; apply bind_Ok in H as (_ & ? & _ & H); by injection H. }
  unfold lift in Ho. injection Ho as Ho _.
  split; [by eapply expected_output_path_nonempty |].
  exists info, filename. split; [|done].
  unfold ydl_prepare_filename, lift in Hf.
  destruct (prepare_filename env opts info); [discriminate |]. by injection Hf as -> _.
Qed.

(** [download_video] in terms of the attempt: its value when the attempt
    returned, and [None] with the failure line when it raised. *)
Lemma download_video_returned self url w r w1 :
  download_attempt env self url (_get_ydl_opts self (mkdtemp env (fs w))) w = (Ok r, w1) →
  download_video env self url w = (Ok r, remove_tree (mkdtemp env (fs w)) w1).
Proof.
  intros H. unfold download_video, with_TemporaryDirectory, try_except. by rewrite H.
Qed.

Lemma download_video_caught self url w e w1 :
  download_attempt env self url (_get_ydl_opts self (mkdtemp env (fs w))) w
  = (Raise (Exc e), w1) →
  download_video env self url w
  = (Ok None, remove_tree (mkdtemp env (fs w)) (add_stdout (failure_line e) w1)).
Proof.
  intros H. unfold download_video, with_TemporaryDirectory, try_except. rewrite H.
  by destruct e.
Qed.

(** [download_video] never raises. *)
Lemma download_video_total self url w :
  ∃ r w', download_video env self url w = (Ok r, w').
Proof.
  destruct (download_attempt env self url (_get_ydl_opts self (mkdtemp env (fs w))) w)
    as [[r|e] w1] eqn:E.
  - rewrite (download_video_returned _ _ _ _ _ E). by eexists _, _.
  - destruct (roe_download_attempt _ _ _ _ _ _ E) as [x ->].
    rewrite (download_video_caught _ _ _ _ _ E). by eexists _, _.
Qed.

Lemma download_video_Some self url w p w' :
  download_video env self url w = (Ok (Some p), w') →
  p ≠ "" ∧ ∃ opts info filename,
    prepare_filename env opts info = inr filename ∧
    expected_output_path self filename = Ok p.
Proof.
  destruct (download_attempt env self url (_get_ydl_opts self (mkdtemp env (fs w))) w)
    as [[r|e] w1] eqn:E.
  - rewrite (download_video_returned _ _ _ _ _ E). intros [= -> _].
    apply download_attempt_Some in E as [? (info & filename & ? & ?)].
    split; [done |]. by eexists _, info, filename.
  - destruct (roe_download_attempt _ _ _ _ _ _ E) as [x ->].
    by rewrite (download_video_caught _ _ _ _ _ E).
Qed.

Lemma download_video_truthy self url w r w' :
  download_video env self url w = (Ok r, w') →
  truthy_opt_str r = bool_decide (r ≠ None).
Proof.
  destruct r as [p|]; [|done]. intros [Hp _]%download_video_Some.
  simpl. by destruct p.
Qed.

End Download.

(** ** The batch *)

Section Batch.

Context (env : environment).

Lemma for_each_print {A} (f : A → string) (l : list A) (w : world) :
  for_each l (λ x, print (f x)) w
  = (Ok (), World (fs w) (stdout w ++ (f <$> l)) (calls w)).
Proof.
  revert w. induction l as [|x l IH]; intros w; simpl.
  - unfold ret. rewrite app_nil_r. by destruct w.
  - unfold bind, print at 1. rewrite IH. simpl. by rewrite <- app_assoc.
Qed.

Lemma bind_print {B} (s : string) (k : unit → M B) (w : world) :
  bind (print s) k w = k () (add_stdout s w).
Proof. reflexivity. Qed.

Lemma print_summary_eq self success_count failed_urls w :
  print_summary self success_count failed_urls w
  = (Ok (), World (fs w)
              (stdout w ++ summary_lines (length (urls (args self)))
                             success_count failed_urls)
              (calls w)).
Proof.
  unfold print_summary, summary_lines. rewrite !bind_print.
  destruct failed_urls as [|u rest].
  - unfold ret, add_stdout. simpl. by rewrite <- !app_assoc.
  - rewrite bind_print, (for_each_print (λ url, "    - " +:+ url)).
    unfold add_stdout. simpl. by rewrite <- !app_assoc.
Qed.

Lemma batch_length self todo w results w' :
  batch env self todo w results w' → length results = length todo.
Proof. induction 1; simpl; congruence. Qed.

Lemma failed_count_le results : (failed_count results ≤ length results)%nat.
Proof. apply length_filter. Qed.

Lemma failures_nil_l results : failures [] results = [].
Proof. done. Qed.

Lemma failures_cons url rest r results :
  failures (url :: rest) (r :: results)
  = match r with
    | None => url :: failures rest results
    | Some _ => failures rest results
    end.
Proof.
  unfold failures. simpl. rewrite filter_cons. simpl. by destruct r.
Qed.

Lemma failed_count_cons r results :
  failed_count (r :: results)
  = match r with
    | None => S (failed_count results)
    | Some _ => failed_count results
    end.
Proof. unfold failed_count. rewrite filter_cons. by destruct r. Qed.

Lemma failures_length batch_urls results :
  length results = length batch_urls →
  length (failures batch_urls results) = failed_count results.
Proof.
  revert results. induction batch_urls as [|u us IH]; intros [|r rs]; try done.
  intros [= H]. rewrite failures_cons, failed_count_cons.
  destruct r; simpl; by rewrite IH.
Qed.

Lemma failures_sublist batch_urls results :
  sublist (failures batch_urls results) batch_urls.
Proof.
  revert results. induction batch_urls as [|u us IH]; intros [|r rs];
    try (apply sublist_nil_l).
  rewrite failures_cons. destruct r.
  - by apply sublist_cons.
  - by apply sublist_skip.
Qed.

(** The loop, from any value of its two accumulators. *)
Lemma download_each_spec self todo success_count failed_urls w :
  ∃ results w',
    batch env self todo w results w' ∧
    download_each env self todo success_count failed_urls w
    = (Ok ((success_count + (length todo - failed_count results))%nat,
           failed_urls ++ failures todo results), w').
Proof.
  revert success_count failed_urls w.
  induction todo as [|url rest IH]; intros sc failed w.
  - exists [], w. split; [constructor |]. simpl. unfold ret.
    by rewrite Nat.add_0_r, app_nil_r.
  - destruct (download_video_total env self url w) as (r & w1 & Hr).
    simpl. unfold bind. rewrite Hr.
    rewrite (download_video_truthy _ _ _ _ _ _ Hr).
    destruct r as [p|].
    + rewrite bool_decide_eq_true_2 by done.
      destruct (IH (sc + 1)%nat failed w1) as (rs & w' & Hb & He).
      exists (Some p :: rs), w'. split; [by econstructor |].
      rewrite He, failures_cons, failed_count_cons.
      pose proof (failed_count_le rs). pose proof (batch_length _ _ _ _ _ Hb).
      do 2 f_equal. f_equal. lia.
    + rewrite bool_decide_eq_false_2 by (by intros []).
      destruct (IH sc (failed ++ [url]) w1) as (rs & w' & Hb & He).
      exists (None :: rs), w'. split; [by econstructor |].
      rewrite He, failures_cons, failed_count_cons, <- app_assoc. done.
Qed.

End Batch.

(** ** The option dictionary *)

Section Options.

(** One step of looking a key up in the dictionary [_get_ydl_opts]
    builds: case analysis on the test of the outermost stage, or the
    outermost insertion. *)
Ltac opts_step :=
  match goal with
  | |- context [(if ?b then _ else _) !! _] => destruct b
  | |- context [(match ?o with Some _ => _ | None => _ end) !! _] => destruct o
  | |- context [<[?k := _]> _ !! ?k] => rewrite lookup_insert_eq
  | |- context [<[_ := _]> _ !! _] => rewrite lookup_insert_ne by discriminate
  | |- context [∅ !! _] => rewrite lookup_empty
  end.

Ltac opts_lookup := unfold _get_ydl_opts; cbv zeta; repeat opts_step; try reflexivity.

Lemma opts_format self temp_dir :
  _get_ydl_opts self temp_dir !! "format"
  = Some (VStr (or_str (format (args self))
                  (if audio_only (args self) then "bestaudio/best"
                   else if video_only (args self) then "bestvideo"
                   else "bestvideo+bestaudio/best"))).
Proof. opts_lookup. Qed.

Lemma opts_merge_output_format self temp_dir :
  _get_ydl_opts self temp_dir !! "merge_output_format"
  = Some (if merge (args self) then VStr "mp4" else VNone).
Proof. opts_lookup. Qed.

Lemma opts_postprocessors self temp_dir :
  _get_ydl_opts self temp_dir !! "postprocessors"
  = if audio_only (args self)
    then Some (if ffmpeg_available self
               then VList [VDict [("key", VStr "FFmpegExtractAudio");
                                  ("preferredcodec", VStr "mp3");
                                  ("preferredquality", VStr "192")]]
               else VList [])
    else None.
Proof. opts_lookup. Qed.

Lemma opts_max_filesize self temp_dir :
  _get_ydl_opts self temp_dir !! "max_filesize"
  = match max_filesize (args self) with
    | Some mb => if truthy_float mb then Some (VFloat (mb * 1024 * 1024)%float) else None
    | None => None
    end.
Proof. opts_lookup. Qed.

End Options.

(** ** Start-up and the listing mode *)

Section Startup.

Context (env : environment).

Lemma init_eval a w available w1 :
  _check_ffmpeg env w = (Ok available, w1) →
  __init__ env a w
  = (Ok {| args := a; self_output_dir := output_dir a; ffmpeg_available := available |},
     World (fs w1)
           (stdout w1 ++ if negb available && (merge a || embed_subs a)
                         then startup_warning else [])
           (calls w1)).
Proof.
  intros H. unfold __init__, bind. rewrite H.
  destruct (negb available && (merge a || embed_subs a)); simpl.
  - unfold ret, add_stdout. simpl. by rewrite <- app_assoc.
  - unfold ret. rewrite app_nil_r. by destruct w1.
Qed.

Lemma main_of_run a w self w1 :
  __init__ env a w = (Ok self, w1) →
  main env a w
  = match run env self w1 with
    | (Ok exit_code, w') => (exit_code, w')
    | (Raise (SystemExit code), w') => (code, w')
    | (Raise KeyboardInterrupt, w') =>
        (EXIT_GENERAL_ERROR, add_stdout (nl +:+ nl +:+ "Download cancelled by user.") w')
    | (Raise (Exc e), w') =>
        (EXIT_GENERAL_ERROR,
         add_stdout (nl +:+ "Unexpected error: " +:+ str_of_exception e) w')
    end.
Proof. intros H. unfold main, bind. by rewrite H. Qed.

(** One listing, by what the engine answers. *)
Lemma list_formats_eval self url w :
  list_formats env self url w
  = let header := nl +:+ "Fetching available formats for: " +:+ url in
    let answer := extract_info env url list_formats_opts false (fs w) in
    let w1 := World answer.2 (stdout w ++ [header]) (calls w ++ [listing_query url]) in
    match answer.1 with
    | inr info =>
        (Ok (), World (fs w1) (stdout w1 ++ render_formats env info) (calls w1))
    | inl (DownloadError msg) =>
        (Raise (SystemExit EXIT_NETWORK_ERROR),
         add_stdout ("Error fetching video info: " +:+ msg) w1)
    | inl e => (Raise (Exc e), w1)
    end.
Proof.
  unfold list_formats. rewrite bind_print. unfold try_except, bind, ydl_extract_info.
  simpl. destruct (extract_info env url list_formats_opts false (fs w)) as [[e|info] files].
  - simpl. by destruct e.
  - simpl. rewrite (for_each_print (λ s, s)). simpl. by rewrite list_fmap_id.
Qed.

(** The listing loop when every query succeeds: all URLs are queried, in
    order, and nothing else is asked of the collaborators. *)
Lemma listing_all_succeed self todo w :
  (∀ url files, url ∈ todo →
     ∃ info, (extract_info env url list_formats_opts false files).1 = inr info) →
  ∃ w', for_each todo (λ url, list_formats env self url ;; print (nl +:+ str_mul "=" 80)) w
        = (Ok (), w') ∧
        calls w' = calls w ++ (listing_query <$> todo).
Proof.
  revert w. induction todo as [|url rest IH]; intros w Hall; simpl.
  - exists w. by rewrite app_nil_r.
  - unfold bind at 1 2. rewrite list_formats_eval. cbv zeta.
    destruct (Hall url (fs w)) as [info Hi]; [apply list_elem_of_here |].
    rewrite Hi. unfold print at 1. simpl.
    edestruct IH as (w' & Hw' & Hc); cycle 1.
    + exists w'. split; [exact Hw' |]. rewrite Hc. simpl. by rewrite <- app_assoc.
    + intros u files Hu. apply Hall. by apply list_elem_of_further.
Qed.

(** The listing loop when the first query to fail raises [DownloadError]:
    the loop ends there with [SystemExit(2)]. *)
Lemma listing_first_failure self before url after w :
  (∀ u files, u ∈ before →
     ∃ info, (extract_info env u list_formats_opts false files).1 = inr info) →
  (∀ files, ∃ msg,
     (extract_info env url list_formats_opts false files).1 = inl (DownloadError msg)) →
  ∃ w', for_each (before ++ url :: after)
          (λ url, list_formats env self url ;; print (nl +:+ str_mul "=" 80)) w
        = (Raise (SystemExit EXIT_NETWORK_ERROR), w') ∧
        calls w' = calls w ++ (listing_query <$> (before ++ [url])).
Proof.
  revert w. induction before as [|u rest IH]; intros w Hall Hbad; simpl.
  - unfold bind at 1 2. rewrite list_formats_eval. cbv zeta.
    destruct (Hbad (fs w)) as [msg Hm]. rewrite Hm. by eexists.
  - unfold bind at 1 2. rewrite list_formats_eval. cbv zeta.
    destruct (Hall u (fs w)) as [info Hi]; [apply list_elem_of_here |].
    rewrite Hi. unfold print at 1. simpl.
    edestruct IH as (w' & Hw' & Hc); cycle 2.
    + exists w'. split; [exact Hw' |]. rewrite Hc. simpl. by rewrite <- app_assoc.
    + intros u' files Hu. apply Hall. by apply list_elem_of_further.
    + done.
Qed.

(** The listing loop in general: it asks the engine for metadata only,
    for a prefix of the URLs, and the file system changes only as those
    queries change it. *)
Lemma listing_queries_only self todo w :
  ∃ r w' queried,
    for_each todo (λ url, list_formats env self url ;; print (nl +:+ str_mul "=" 80)) w
    = (r, w') ∧
    queried `prefix_of` todo ∧
    calls w' = calls w ++ (listing_query <$> queried) ∧
    ((∀ url opts files, (extract_info env url opts false files).2 = files) →
     fs w' = fs w).
Proof.
  revert w. induction todo as [|url rest IH]; intros w; simpl.
  - exists (Ok ()), w, []. split_and!; [done | done | by rewrite app_nil_r | done].
  - unfold bind at 1 2. rewrite list_formats_eval. cbv zeta.
    destruct (extract_info env url list_formats_opts false (fs w)) as [[e|info] files] eqn:E.
    + simpl. destruct e; eexists _, _, [url];
        (split_and!; [reflexivity | by apply prefix_cons, prefix_nil | done |
                      intros Hp; simpl; by rewrite <- (Hp url list_formats_opts (fs w)), E]).
    + simpl. unfold print at 1. simpl.
      match goal with |- context [for_each rest ?b ?w0] =>
        destruct (IH w0) as (r & w' & queried & Hr & Hq & Hc & Hf) end.
      exists r, w', (url :: queried). split_and!.
      * exact Hr.
      * by apply prefix_cons.
      * rewrite Hc. simpl. by rewrite <- app_assoc.
      * intros Hp. rewrite (Hf Hp). simpl.
        by rewrite <- (Hp url list_formats_opts (fs w)), E.
Qed.

End Startup.

(** * The claims *)

(** C4.  The format selector handed to the engine is the user's format
    string when one is given (a non-empty [--format]); otherwise it is the
    default of the mode: "bestaudio/best" for audio only, "bestvideo" for
    video only, "bestvideo+bestaudio/best" for both.  When [--merge] is set
    the merge container is "mp4". *)
Theorem format_selector_resolution (self : YouTubeDownloader) (temp_dir : string) :
  let a := args self in
  let opts := _get_ydl_opts self temp_dir in
  (∀ s, format a = Some s → s ≠ "" → opts !! "format" = Some (VStr s)) ∧
  (format a = None ∨ format a = Some "" →
     (audio_only a = true → opts !! "format" = Some (VStr "bestaudio/best")) ∧
     (audio_only a = false → video_only a = true →
        opts !! "format" = Some (VStr "bestvideo")) ∧
     (audio_only a = false → video_only a = false →
        opts !! "format" = Some (VStr "bestvideo+bestaudio/best"))) ∧
  (merge a = true → opts !! "merge_output_format" = Some (VStr "mp4")) ∧
  (merge a = false → opts !! "merge_output_format" = Some VNone).
Proof.
  intros a opts. unfold opts. rewrite opts_format, opts_merge_output_format. fold a.
  split_and!.
  - intros s -> Hs. simpl. by destruct s.
  - intros Hf. assert (Hd : ∀ d, or_str (format a) d = d) by (by destruct Hf as [->| ->]).
    rewrite Hd. split_and!; [by intros -> | by intros -> -> | by intros -> ->].
  - by intros ->.
  - by intros ->.
Qed.

(** C9.  A size cap that is set and is not zero reaches the engine
    multiplied by 1024 and by 1024 again; a cap of 10 gives 10485760 bytes
    exactly.  A cap of zero (of either sign) is set too, and attaches no
    ceiling at all. *)
Theorem max_filesize_bytes (self : YouTubeDownloader) (temp_dir : string) (mb : float) :
  max_filesize (args self) = Some mb →
  (truthy_float mb = true →
   _get_ydl_opts self temp_dir !! "max_filesize" = Some (VFloat (mb * 1024 * 1024)%float)) ∧
  (mb = 10%float →
   _get_ydl_opts self temp_dir !! "max_filesize" = Some (VFloat 10485760%float)) ∧
  (mb = 0%float ∨ mb = (-0)%float →
   _get_ydl_opts self temp_dir !! "max_filesize" = None).
Proof.
  intros Hmb. rewrite opts_max_filesize, Hmb. split_and!.
  - by intros ->.
  - by intros ->.
  - by intros [-> | ->].
Qed.

Lemma max_filesize_bytes_witness :
  _get_ydl_opts (Demo.downloader (Demo.request Demo.three_urls false false) true)
      "/tmp/tmp8x3k" !! "max_filesize"
  = Some (VFloat 10485760%float).
Proof.
  destruct (max_filesize_bytes
              (Demo.downloader (Demo.request Demo.three_urls false false) true)
              "/tmp/tmp8x3k" 10%float eq_refl) as (_ & Hten & _).
  by apply Hten.
Defined.

(** C9 as stated fails: [--max-filesize 0] sets a cap, and no ceiling of
    0 bytes (nor any other) is passed to the engine. *)
Lemma max_filesize_zero_counterexample :
  max_filesize (args (Demo.downloader Stub.cap_zero true)) = Some 0%float ∧
  _get_ydl_opts (Demo.downloader Stub.cap_zero true) "/tmp/tmp8x3k" !! "max_filesize"
  = None ∧
  _get_ydl_opts (Demo.downloader Stub.cap_zero true) "/tmp/tmp8x3k" !! "max_filesize"
  ≠ Some (VFloat (0 * 1024 * 1024)%float).
Proof. by vm_compute. Qed.

(** C5.  An audio-only download with ffmpeg available at start-up has an
    output path whose suffix is ".mp3", whatever file name the engine
    produced; with ffmpeg unavailable the list of post-processors is empty
    and the output path is the engine's file name as it stands. *)
Theorem audio_only_extension (self : YouTubeDownloader) (filename temp_dir : string) :
  audio_only (args self) = true →
  (ffmpeg_available self = true → name (Path filename) ≠ "" →
     ∃ output_path, expected_output_path self filename = Ok output_path ∧
                    with_suffix (Path filename) ".mp3" = Ok output_path ∧
                    suffix output_path = ".mp3") ∧
  (ffmpeg_available self = false →
     _get_ydl_opts self temp_dir !! "postprocessors" = Some (VList []) ∧
     expected_output_path self filename = Ok (Path filename)).
Proof.
  intros Ha. split.
  - intros Hf Hn. destruct (path_parts _ Hn) as (d & st & sx & Hp).
    exists (d +:+ st +:+ ".mp3"). unfold expected_output_path. rewrite Ha, Hf. simpl.
    rewrite (with_suffix_mp3 _ _ _ _ Hp). split_and!; [done | done |].
    apply (suffix_with_mp3 _ _ _ _ Hp).
  - intros Hf. rewrite opts_postprocessors. unfold expected_output_path.
    by rewrite Ha, Hf.
Qed.

Lemma audio_only_extension_witness :
  (∃ output_path,
     expected_output_path (Demo.downloader (Demo.request Demo.three_urls true false) true)
       "/out/clip.webm" = Ok output_path ∧
     with_suffix (Path "/out/clip.webm") ".mp3" = Ok output_path ∧
     suffix output_path = ".mp3") ∧
  (_get_ydl_opts (Demo.downloader (Demo.request Demo.three_urls true false) false)
     "/tmp/tmp8x3k" !! "postprocessors" = Some (VList []) ∧
   expected_output_path (Demo.downloader (Demo.request Demo.three_urls true false) false)
     "/out/clip.webm" = Ok "/out/clip.webm").
Proof.
  split.
  - apply (audio_only_extension
             (Demo.downloader (Demo.request Demo.three_urls true false) true)
             "/out/clip.webm" "/tmp/tmp8x3k"); [reflexivity | reflexivity |].
    vm_compute. discriminate.
  - apply (audio_only_extension
             (Demo.downloader (Demo.request Demo.three_urls true false) false)
             "/out/clip.webm" "/tmp/tmp8x3k"); reflexivity.
Defined.

Section EmbedderClaims.

Context (env : environment).

(** C8.  Caption discovery visits the union of the manual and automatic
    caption languages and, for each, probes [<video-stem>.<lang><ext>]
    with the extensions ".vtt", ".srt", ".ass" in that order: the first
    that exists is taken, so a language gives at most one file, and a
    language with no such file gives none. *)
Theorem caption_discovery (video base_path : string) (info : info_dict)
    (files : gmap string string) :
  set_order_sound env →
  with_suffix video "" = Ok base_path →
  let langs := caption_languages env info in
  let found := find_subtitle_files files base_path langs in
  video = base_path +:+ suffix video ∧
  SUPPORTED_SUBTITLE_FORMATS = [".vtt"; ".srt"; ".ass"] ∧
  (∀ lang, lang ∈ langs ↔
     lang ∈ keys_or_empty (info_subtitles info)
     ∨ lang ∈ keys_or_empty (info_automatic_captions info)) ∧
  (∀ lang ext, sub_file_path base_path lang ext = base_path +:+ "." +:+ lang +:+ ext) ∧
  (∀ lang sub_file, (lang, sub_file) ∈ found ↔
     lang ∈ langs ∧
     ∃ earlier ext later,
       SUPPORTED_SUBTITLE_FORMATS = earlier ++ ext :: later ∧
       sub_file = sub_file_path base_path lang ext ∧
       is_Some (files !! sub_file) ∧
       ∀ e, e ∈ earlier → files !! sub_file_path base_path lang e = None) ∧
  NoDup found.*1 ∧
  sublist found.*1 langs ∧
  (∀ lang, (∀ ext, ext ∈ SUPPORTED_SUBTITLE_FORMATS →
              files !! sub_file_path base_path lang ext = None) →
           lang ∉ found.*1).
Proof.
  intros Hset Hb langs found.
  destruct (with_suffix_empty_inv _ _ Hb) as (d & st & sx & Hp & ->).
  destruct (Hset (keys_or_empty (info_subtitles info)
                  ∪ keys_or_empty (info_automatic_captions info))) as [Hnd Hmem].
  split_and!.
  - rewrite (parts_suffix_eq _ _ _ _ Hp), app_assoc_str. apply (parts_path _ _ _ _ Hp).
  - done.
  - intros lang. unfold langs, caption_languages. rewrite Hmem. apply elem_of_union.
  - apply sub_file_path_eq.
  - intros lang sub_file. unfold found.
    by rewrite elem_of_find_subtitle_files, first_existing_Some.
  - by apply found_NoDup_fst.
  - apply find_subtitle_files_fst_sublist.
  - intros lang Hnone ([l s] & E & Hin)%list_elem_of_fmap. simpl in E. subst l.
    apply elem_of_find_subtitle_files in Hin as [_ Hin].
    apply first_existing_None in Hnone. congruence.
Qed.

(** C7.  When the discovery finds no side-car file, the Embedder returns
    the path it was given, touches no file, calls no collaborator, and
    prints one line, which is not a warning. *)
Theorem embed_no_captions (self : YouTubeDownloader) (video base_path : string)
    (info : info_dict) (w : world) :
  is_Some (fs w !! video) →
  with_suffix video "" = Ok base_path →
  (∀ lang ext, lang ∈ caption_languages env info →
               ext ∈ SUPPORTED_SUBTITLE_FORMATS →
               fs w !! sub_file_path base_path lang ext = None) →
  ∃ w', _embed_subtitles env self video info w = (Ok video, w') ∧
        fs w' = fs w ∧
        calls w' = calls w ∧
        stdout w' = stdout w ++ ["No subtitle files found to embed"].
Proof.
  intros Hv Hb Hnone.
  assert (Hfound : find_subtitle_files (fs w) base_path (caption_languages env info) = []).
  { destruct (find_subtitle_files _ _ _) as [|[l s] rest] eqn:E; [done |].
    assert (Hin : (l, s) ∈ find_subtitle_files (fs w) base_path
                              (caption_languages env info))
      by (rewrite E; apply list_elem_of_here).
    apply elem_of_find_subtitle_files in Hin as [Hl Hs].
    assert (Hno : first_existing (fs w) base_path l SUPPORTED_SUBTITLE_FORMATS = None)
      by (apply first_existing_None; intros e He; by apply Hnone).
    congruence. }
  rewrite (embed_no_subtitle_files env self video info w base_path) by done.
  by eexists.
Qed.

(** X19.  When the remux process exits with a non-zero status, the
    Embedder removes the temporary output file if there is one, leaves
    the video and the discovered side-car files as they were, prints a
    warning and returns the path it was given: nothing is raised.  (The
    video's container is not itself a caption format, and the process wrote
    nowhere but to its output file.) *)
Theorem embed_remux_failure (self : YouTubeDownloader)
    (video base_path temp_output : string) (info : info_dict) (w : world)
    (returncode : Z) (files : gmap string string) :
  let subtitle_files :=
    find_subtitle_files (fs w) base_path (caption_languages env info) in
  let cmd := ffmpeg_cmd (overwrite (args self)) video subtitle_files temp_output in
  is_Some (fs w !! video) →
  with_suffix video "" = Ok base_path →
  with_suffix video (".temp" +:+ suffix video) = Ok temp_output →
  subtitle_files ≠ [] →
  suffix video ∉ SUPPORTED_SUBTITLE_FORMATS →
  subprocess env cmd (fs w) = Exited returncode files →
  returncode ≠ 0 →
  (∀ p, p ≠ temp_output → files !! p = fs w !! p) →
  ∃ w', _embed_subtitles env self video info w = (Ok video, w') ∧
        fs w' !! temp_output = None ∧
        fs w' !! video = fs w !! video ∧
        (∀ lang sub_file, (lang, sub_file) ∈ subtitle_files →
                          fs w' !! sub_file = fs w !! sub_file ∧
                          is_Some (fs w' !! sub_file)) ∧
        (∀ p, p ≠ temp_output → fs w' !! p = fs w !! p) ∧
        calls w' = calls w ++ [SubprocessRun cmd] ∧
        stdout w'
        = stdout w ++ ["Embedding " +:+ str_of_nat (length subtitle_files)
                         +:+ " subtitle track(s)...";
                       "Warning: Failed to embed subtitles: "
                         +:+ called_process_error_str env cmd returncode].
Proof.
  intros found cmd Hv Hb Ht Hne Hsx Hrun Hrc Hkeep.
  destruct (with_suffix_empty_inv _ _ Hb) as (d & st & sx & Hp & ->).
  rewrite (with_suffix_temp _ _ _ _ Hp) in Ht. injection Ht as <-.
  rewrite (parts_suffix_eq _ _ _ _ Hp) in Hsx.
  eexists. split.
  { apply (embed_remux_failed env self video info w (d +:+ st)); try done.
    apply (with_suffix_temp _ _ _ _ Hp). }
  simpl.
  assert (Hother : ∀ p, p ≠ d +:+ st +:+ ".temp" +:+ sx →
            delete (d +:+ st +:+ ".temp" +:+ sx) files !! p = fs w !! p).
  { intros p Hpne. rewrite lookup_delete_ne by done. by apply Hkeep. }
  split_and!.
  - apply lookup_delete_eq.
  - apply Hother. intros E. by apply (temp_ne_video _ _ _ _ Hp).
  - intros lang sub_file Hin.
    apply found_sub_file in Hin as (_ & Hsome & ext & Hext & ->).
    rewrite Hother; [done |]. by apply (sub_ne_temp video).
  - done.
  - done.
  - reflexivity.
Qed.

End EmbedderClaims.

Lemma caption_discovery_witness :
  find_subtitle_files (fs Demo.fetched) "/out/clip"
    (caption_languages (Demo.env 0 0) Demo.info)
  = [("en", "/out/clip.en.vtt")] ∧
  NoDup (find_subtitle_files (fs Demo.fetched) "/out/clip"
           (caption_languages (Demo.env 0 0) Demo.info)).*1.
Proof.
  destruct (caption_discovery (Demo.env 0 0) "/out/clip.mp4" "/out/clip" Demo.info
              (fs Demo.fetched)) as (_ & _ & _ & _ & _ & Hnd & _).
  - intros s. split; [apply NoDup_elements | intros x; apply elem_of_elements].
  - reflexivity.
  - split; [by vm_compute | exact Hnd].
Defined.

Lemma embed_no_captions_witness :
  ∃ w', _embed_subtitles (Demo.env 0 0)
          (Demo.downloader (Demo.request Demo.three_urls false false) true)
          "/out/clip.mp4" Demo.info Demo.bare = (Ok "/out/clip.mp4", w') ∧
        fs w' = fs Demo.bare ∧
        calls w' = calls Demo.bare ∧
        stdout w' = stdout Demo.bare ++ ["No subtitle files found to embed"].
Proof.
  apply (embed_no_captions (Demo.env 0 0)
           (Demo.downloader (Demo.request Demo.three_urls false false) true)
           "/out/clip.mp4" "/out/clip" Demo.info Demo.bare).
  - by exists "video".
  - reflexivity.
  - intros lang ext Hl He. apply list_elem_of_In in Hl, He.
    vm_compute in Hl, He.
    destruct Hl as [<-|[<-|[]]], He as [<-|[<-|[<-|[]]]]; reflexivity.
Defined.

Lemma embed_remux_failure_witness :
  ∃ w', _embed_subtitles (Demo.env 0 1)
          (Demo.downloader (Demo.request Demo.three_urls false false) true)
          "/out/clip.mp4" Demo.info Demo.fetched = (Ok "/out/clip.mp4", w') ∧
        fs w' !! "/out/clip.temp.mp4" = None ∧
        fs w' !! "/out/clip.mp4" = Some "video" ∧
        fs w' !! "/out/clip.en.vtt" = Some "WEBVTT".
Proof.
  destruct (embed_remux_failure (Demo.env 0 1)
              (Demo.downloader (Demo.request Demo.three_urls false false) true)
              "/out/clip.mp4" "/out/clip" "/out/clip.temp.mp4" Demo.info Demo.fetched
              1 (<["/out/clip.temp.mp4" := "half"]> (fs Demo.fetched)))
    as (w' & Hrun & Htemp & Hvideo & Hsubs & _).
  - by exists "video".
  - reflexivity.
  - reflexivity.
  - by vm_compute.
  - intros H. apply list_elem_of_In in H. vm_compute in H.
    destruct H as [H|[H|[H|[]]]]; discriminate.
  - by vm_compute.
  - done.
  - intros p Hp. by rewrite lookup_insert_ne.
  - exists w'. split_and!; [exact Hrun | exact Htemp | by rewrite Hvideo |].
    destruct (Hsubs "en" "/out/clip.en.vtt") as [-> _]; [|reflexivity].
    apply list_elem_of_In. vm_compute. by left.
Defined.

Section BatchClaims.

Context (env : environment).

(** C10.  The Embedder returns the path it was given in every branch:
    video missing, no captions found, remux succeeded, remux failed.  So
    the path [download_video] reports is the output path computed before
    the Embedder ran.  (The Embedder does return when the video has a name,
    its container is not a caption format, and the remux process starts
    and writes nowhere but to its output file.) *)
Theorem embed_returns_input_path (self : YouTubeDownloader) (video : string)
    (info : info_dict) (w : world) :
  name video ≠ "" →
  suffix video ∉ SUPPORTED_SUBTITLE_FORMATS →
  set_order_sound env →
  writes_output_only env →
  (∃ w', _embed_subtitles env self video info w = (Ok video, w')) ∧
  (∀ video0 info0 w0 r w0',
     _embed_subtitles env self video0 info0 w0 = (Ok r, w0') → r = video0) ∧
  (fs w !! video = None →
     _embed_subtitles env self video info w
     = (Ok video,
        add_stdout ("Warning: Video file not found for subtitle embedding: " +:+ video) w)) ∧
  (∀ url w0 output_path w0',
     download_video env self url w0 = (Ok (Some output_path), w0') →
     ∃ opts info0 filename,
       prepare_filename env opts info0 = inr filename ∧
       expected_output_path self filename = Ok output_path).
Proof.
  intros Hn Hsx Hset Hrun. split_and!.
  - apply embed_subtitles_total; [done | done | apply Hset |].
    intros cmd. apply Hrun.
  - intros video0 info0. apply ro_embed_subtitles.
  - intros Hv. unfold _embed_subtitles, bind, path_exists.
    rewrite bool_decide_eq_false_2; [done |]. rewrite Hv. by intros [? ?].
  - intros url w0 p w0' H. by apply download_video_Some in H as [_ H].
Qed.

(** C1.  In download mode, with N URLs of which K have [download_video]
    return [None]: the summary counts N-K successes, the list of failed
    URLs has K entries in input order, and the exit status is 0 exactly
    when K is 0.  Whatever the attempt for one URL raises is caught in
    [download_video], printed, and counted as that URL's failure; the
    loop goes on. *)
Theorem batch_report (self : YouTubeDownloader) (w : world) :
  simulate (args self) = false →
  ∃ results w1,
    let batch_urls := urls (args self) in
    let N := length batch_urls in
    let K := failed_count results in
    let failed_urls := failures batch_urls results in
    let exit_code := if bool_decide (K = 0%nat) then EXIT_SUCCESS else EXIT_GENERAL_ERROR in
    batch env self batch_urls w results w1 ∧
    length results = N ∧
    download_each env self batch_urls 0 [] w = (Ok ((N - K)%nat, failed_urls), w1) ∧
    length failed_urls = K ∧
    sublist failed_urls batch_urls ∧
    run env self w
    = (Ok exit_code,
       World (fs w1) (stdout w1 ++ summary_lines N (N - K) failed_urls) (calls w1)) ∧
    (exit_code = 0 ↔ K = 0%nat) ∧
    (∀ a w0, __init__ env a w0 = (Ok self, w) → (main env a w0).1 = exit_code) ∧
    (∀ url w0, ∃ result w0', download_video env self url w0 = (Ok result, w0')) ∧
    (∀ url w0 e w0',
       download_attempt env self url (_get_ydl_opts self (mkdtemp env (fs w0))) w0
       = (Raise e, w0') →
       ∃ x, e = Exc x ∧
            download_video env self url w0
            = (Ok None, remove_tree (mkdtemp env (fs w0))
                          (add_stdout (failure_line x) w0'))).
Proof.
  intros Hsim.
  destruct (download_each_spec env self (urls (args self)) 0 [] w)
    as (results & w1 & Hb & He).
  exists results, w1. cbv zeta.
  pose proof (batch_length _ _ _ _ _ _ Hb) as Hlen.
  pose proof (failed_count_le results) as Hle.
  simpl in He.
  assert (Hrun : run env self w
    = (Ok (if bool_decide (failed_count results = 0%nat)
           then EXIT_SUCCESS else EXIT_GENERAL_ERROR),
       World (fs w1)
         (stdout w1 ++ summary_lines (length (urls (args self)))
            (length (urls (args self)) - failed_count results)
            (failures (urls (args self)) results))
         (calls w1))).
  { unfold run. rewrite Hsim. unfold bind at 1. rewrite He.
    unfold bind. rewrite print_summary_eq. unfold ret. do 2 f_equal.
    case_bool_decide as HK.
    - rewrite HK, Nat.sub_0_r. by rewrite Nat.eqb_refl.
    - assert ((length (urls (args self)) - failed_count results
               =? length (urls (args self)))%nat = false) as ->; [|done].
      apply Nat.eqb_neq. lia. }
  split_and!.
  - done.
  - done.
  - done.
  - by apply failures_length.
  - apply failures_sublist.
  - exact Hrun.
  - case_bool_decide; split; try done; by intros.
  - intros a w0 Hinit. rewrite (main_of_run env a w0 self w Hinit). by rewrite Hrun.
  - apply download_video_total.
  - intros url w0 e w0' Hraise.
    destruct (roe_download_attempt _ _ _ _ _ _ _ Hraise) as [x ->].
    exists x. split; [done |]. by apply download_video_caught.
Qed.

(** C2, as the code has it.  With [--simulate] the run only lists: it asks
    the engine for metadata (never a download, never the media binary),
    URL after URL.  When every query succeeds all URLs are listed and the
    exit status is 0; a query that raises [DownloadError] ends the process
    at once with status 2, and the URLs after it are not listed. *)
Theorem simulate_lists_only (self : YouTubeDownloader) (w : world) :
  simulate (args self) = true →
  let batch_urls := urls (args self) in
  (∃ r w' queried,
     run env self w = (r, w') ∧
     queried `prefix_of` batch_urls ∧
     calls w' = calls w ++ (listing_query <$> queried) ∧
     ((∀ url opts files, (extract_info env url opts false files).2 = files) →
      fs w' = fs w)) ∧
  ((∀ url files, url ∈ batch_urls →
      ∃ info, (extract_info env url list_formats_opts false files).1 = inr info) →
   ∃ w', run env self w = (Ok EXIT_SUCCESS, w') ∧
         calls w' = calls w ++ (listing_query <$> batch_urls) ∧
         ∀ a w0, __init__ env a w0 = (Ok self, w) →
                 (main env a w0).1 = EXIT_SUCCESS) ∧
  (∀ before url after,
     batch_urls = before ++ url :: after →
     (∀ u files, u ∈ before →
        ∃ info, (extract_info env u list_formats_opts false files).1 = inr info) →
     (∀ files, ∃ msg,
        (extract_info env url list_formats_opts false files).1
        = inl (DownloadError msg)) →
     ∃ w', run env self w = (Raise (SystemExit EXIT_NETWORK_ERROR), w') ∧
           calls w' = calls w ++ (listing_query <$> (before ++ [url])) ∧
           ∀ a w0, __init__ env a w0 = (Ok self, w) →
                   (main env a w0).1 = EXIT_NETWORK_ERROR).
Proof.
  intros Hsim batch_urls.
  assert (Hrun : ∀ r w',
            for_each batch_urls
              (λ url, list_formats env self url ;; print (nl +:+ str_mul "=" 80)) w
            = (r, w') →
            run env self w
            = (match r with Ok _ => Ok EXIT_SUCCESS | Raise e => Raise e end, w')).
  { intros r w' H. unfold run. rewrite Hsim. unfold bind at 1.
    fold batch_urls. rewrite H. by destruct r. }
  split_and!.
  - destruct (listing_queries_only env self batch_urls w)
      as (r & w' & queried & Hr & Hq & Hc & Hf).
    rewrite (Hrun _ _ Hr). by eexists _, w', queried.
  - intros Hall.
    destruct (listing_all_succeed env self batch_urls w Hall) as (w' & Hr & Hc).
    exists w'. split_and!.
    + by rewrite (Hrun _ _ Hr).
    + done.
    + intros a w0 Hinit. rewrite (main_of_run env a w0 self w Hinit).
      by rewrite (Hrun _ _ Hr).
  - intros before url after Hurls Hok Hbad.
    destruct (listing_first_failure env self before url after w Hok Hbad)
      as (w' & Hr & Hc).
    rewrite <- Hurls in Hr.
    exists w'. split_and!.
    + by rewrite (Hrun _ _ Hr).
    + done.
    + intros a w0 Hinit. rewrite (main_of_run env a w0 self w Hinit).
      by rewrite (Hrun _ _ Hr).
Qed.

(** C6, as the code has it.  When ffmpeg is unavailable at start-up, no
    audio post-processing step is attached and the Embedder is never
    invoked: a download behaves as if [--embed-subs] had not been given,
    and raises nothing.  The start-up warning is printed once, by the
    constructor, exactly when [--merge] or [--embed-subs] was asked for. *)
Theorem ffmpeg_unavailable_degradation (a : Namespace) (w w1 : world) :
  _check_ffmpeg env w = (Ok false, w1) →
  let self := {| args := a; self_output_dir := output_dir a;
                 ffmpeg_available := false |} in
  __init__ env a w
  = (Ok self,
     World (fs w1)
           (stdout w1 ++ if merge a || embed_subs a then startup_warning else [])
           (calls w1)) ∧
  (∀ temp_dir,
     _get_ydl_opts self temp_dir !! "postprocessors"
     = if audio_only a then Some (VList []) else None) ∧
  (∀ url w0,
     download_video env self url w0
     = download_video env {| args := without_embed_subs a;
                             self_output_dir := output_dir a;
                             ffmpeg_available := false |} url w0) ∧
  (∀ url w0, ∃ result w0', download_video env self url w0 = (Ok result, w0')).
Proof.
  intros Hprobe self. split_and!.
  - by rewrite (init_eval env a w false w1 Hprobe).
  - intros temp_dir. rewrite opts_postprocessors. done.
  - intros url w0. unfold download_video, download_attempt, self. simpl.
    rewrite !andb_false_r. reflexivity.
  - apply download_video_total.
Qed.

End BatchClaims.

(** ** The claims on the small environment *)

Lemma demo_set_order_sound probe_rc remux_rc :
  set_order_sound (Demo.env probe_rc remux_rc).
Proof.
  intros s. split; [apply NoDup_elements | intros x; apply elem_of_elements].
Qed.

Lemma demo_writes_output_only probe_rc remux_rc :
  writes_output_only (Demo.env probe_rc remux_rc).
Proof.
  intros cmd files. simpl. unfold Demo.ffmpeg.
  case_bool_decide; [by eexists _, _ |].
  eexists _, _. split; [done |]. intros p Hp.
  destruct (last cmd) as [out|]; [|done].
  rewrite lookup_insert_ne; [done | congruence].
Qed.

Lemma demo_suffix_not_caption : suffix "/out/clip.mp4" ∉ SUPPORTED_SUBTITLE_FORMATS.
Proof.
  intros H. apply list_elem_of_In in H. vm_compute in H.
  destruct H as [H|[H|[H|[]]]]; discriminate.
Qed.

Lemma embed_returns_input_path_witness :
  ∃ w', _embed_subtitles (Demo.env 0 0)
          (Demo.downloader (Demo.request Demo.three_urls false false) true)
          "/out/clip.mp4" Demo.info Demo.fetched = (Ok "/out/clip.mp4", w').
Proof.
  destruct (embed_returns_input_path (Demo.env 0 0)
              (Demo.downloader (Demo.request Demo.three_urls false false) true)
              "/out/clip.mp4" Demo.info Demo.fetched) as [H _].
  - vm_compute. discriminate.
  - apply demo_suffix_not_caption.
  - apply demo_set_order_sound.
  - apply demo_writes_output_only.
  - exact H.
Defined.

Lemma batch_report_witness :
  ∃ results w1,
    batch (Demo.env 0 0)
      (Demo.downloader (Demo.request Demo.three_urls false false) true)
      Demo.three_urls Demo.nothing results w1 ∧
    length results = 3%nat ∧
    (run (Demo.env 0 0)
       (Demo.downloader (Demo.request Demo.three_urls false false) true)
       Demo.nothing).1
    = Ok (if bool_decide (failed_count results = 0%nat)
          then EXIT_SUCCESS else EXIT_GENERAL_ERROR).
Proof.
  destruct (batch_report (Demo.env 0 0)
              (Demo.downloader (Demo.request Demo.three_urls false false) true)
              Demo.nothing eq_refl)
    as (results & w1 & Hb & Hlen & _ & _ & _ & Hrun & _).
  exists results, w1. split_and!; [exact Hb | exact Hlen | by rewrite Hrun].
Defined.

(** On the demonstration batch: two of three URLs succeed, the refused
    one is reported, and the status is 1. *)
Example demo_batch_summary :
  let r := main (Demo.env 0 0) (Demo.request Demo.three_urls false false) Demo.nothing in
  r.1 = EXIT_GENERAL_ERROR ∧
  "  Successful: 2/3" ∈ stdout r.2 ∧
  "    - https://youtu.be/bad" ∈ stdout r.2.
Proof.
  vm_compute. split; [done |].
  split; apply list_elem_of_In; vm_compute; tauto.
Qed.

(** C2 as stated fails: a listing whose first URL the engine refuses
    ends with status 2, not 0, and the second URL is never listed. *)
Lemma simulate_exit_status_counterexample :
  simulate Demo.listing = true ∧
  (main (Demo.env 0 0) Demo.listing Demo.nothing).1 = EXIT_NETWORK_ERROR ∧
  (main (Demo.env 0 0) Demo.listing Demo.nothing).1 ≠ EXIT_SUCCESS ∧
  calls (main (Demo.env 0 0) Demo.listing Demo.nothing).2
  = [SubprocessRun FFMPEG_CHECK_CMD; listing_query "https://youtu.be/bad"].
Proof. by vm_compute. Qed.

Lemma simulate_lists_only_witness :
  ∃ w', run (Demo.env 0 0) (Demo.downloader Demo.listing true) Demo.nothing
        = (Raise (SystemExit EXIT_NETWORK_ERROR), w') ∧
        calls w' = [listing_query "https://youtu.be/bad"].
Proof.
  destruct (simulate_lists_only (Demo.env 0 0) (Demo.downloader Demo.listing true)
              Demo.nothing eq_refl) as (_ & _ & Hfail).
  destruct (Hfail [] "https://youtu.be/bad" ["https://youtu.be/abc"])
    as (w' & Hrun & Hcalls & _).
  - reflexivity.
  - intros u files Hu. by apply elem_of_nil in Hu.
  - intros files. by exists "Video unavailable".
  - exists w'. split; [exact Hrun | exact Hcalls].
Defined.

(** C6 as stated fails twice over: with ffmpeg unavailable and [--merge]
    given, the merge container "mp4" is still requested; and a bare
    [--audio-only] run, whose audio extraction is dropped, starts with no
    warning at all. *)
Lemma ffmpeg_unavailable_counterexample :
  ffmpeg_available (Demo.downloader (Demo.request Demo.three_urls false false) false)
  = false ∧
  _get_ydl_opts (Demo.downloader (Demo.request Demo.three_urls false false) false)
      "/tmp/tmp8x3k" !! "merge_output_format"
  = Some (VStr "mp4") ∧
  __init__ (Demo.env 1 1) Demo.plain_audio Demo.nothing
  = (Ok (Demo.downloader Demo.plain_audio false),
     World ∅ [] [SubprocessRun FFMPEG_CHECK_CMD]) ∧
  _get_ydl_opts (Demo.downloader Demo.plain_audio false) "/tmp/tmp8x3k"
    !! "postprocessors"
  = Some (VList []).
Proof. by vm_compute. Qed.

Lemma ffmpeg_unavailable_degradation_witness :
  __init__ (Demo.env 1 1) (Demo.request Demo.three_urls true false) Demo.nothing
  = (Ok (Demo.downloader (Demo.request Demo.three_urls true false) false),
     World ∅ startup_warning [SubprocessRun FFMPEG_CHECK_CMD]) ∧
  _get_ydl_opts (Demo.downloader (Demo.request Demo.three_urls true false) false)
    "/tmp/tmp8x3k" !! "postprocessors"
  = Some (VList []).
Proof.
  destruct (ffmpeg_unavailable_degradation (Demo.env 1 1)
              (Demo.request Demo.three_urls true false) Demo.nothing
              (World ∅ [] [SubprocessRun FFMPEG_CHECK_CMD]) eq_refl)
    as (Hinit & Hpost & _).
  split; [exact Hinit | exact (Hpost "/tmp/tmp8x3k")].
Defined.

(** C3.  The claim holds of the code for a remux that exits with a
    non-zero status and fails for one that cannot be started: ffmpeg
    answers the start-up probe, the video and its captions are downloaded,
    starting the remux raises [FileNotFoundError], the Embedder lets the
    exception through (its [except] clause names [CalledProcessError]
    only, where [_check_ffmpeg] names [FileNotFoundError] too), and the
    URL is reported as failed with the video on disk. *)
Theorem remux_start_failure_escapes :
  __init__ Stub.vanishing Stub.one_url Demo.nothing
  = (Ok (Demo.downloader Stub.one_url true),
     World ∅ [] [SubprocessRun FFMPEG_CHECK_CMD]) ∧
  (_embed_subtitles Stub.vanishing (Demo.downloader Stub.one_url true)
     "/out/clip.mp4" Demo.info Demo.fetched).1
  = Raise (Exc (FileNotFoundError "[Errno 2] No such file or directory: 'ffmpeg'")) ∧
  (download_video Stub.vanishing (Demo.downloader Stub.one_url true)
     "https://youtu.be/abc" Demo.nothing).1
  = Ok None ∧
  (main Stub.vanishing Stub.one_url Demo.nothing).1 = EXIT_GENERAL_ERROR ∧
  fs (main Stub.vanishing Stub.one_url Demo.nothing).2 !! "/out/clip.mp4" = Some "video" ∧
  fs (main Stub.vanishing Stub.one_url Demo.nothing).2 !! "/out/clip.en.vtt"
  = Some "WEBVTT" ∧
  stdout (main Stub.vanishing Stub.one_url Demo.nothing).2
  = [nl +:+ "Downloading: https://youtu.be/abc";
     "Embedding 1 subtitle track(s)...";
     "Unexpected error: [Errno 2] No such file or directory: 'ffmpeg'";
     nl +:+ "============================================================";
     "Download Summary:";
     "  Successful: 0/1";
     "  Failed URLs:";
     "    - https://youtu.be/abc"].
Proof. by vm_compute. Qed.

(** * Further properties of the code *)

(** ** The command-line boundary *)

Section CommandLine.

Lemma prefix_app_iff (a b : string) :
  String.prefix a b = true ↔ ∃ post, b = a +:+ post.
Proof.
  revert b. induction a as [|x a IH]; intros b.
  - split; [intros _; by exists b | by destruct b].
  - destruct b as [|y b]; simpl; [split; [done | by intros [post [=]]] |].
    destruct (Ascii.ascii_dec x y) as [->|Hne].
    + rewrite IH. split; intros [post E]; exists post.
      * rewrite app_cons_str. by f_equal.
      * rewrite app_cons_str in E. by injection E.
    + split; [done |]. intros [post E]. rewrite app_cons_str in E. congruence.
Qed.

Lemma is_substring_nil (needle : string) :
  is_substring needle "" = String.prefix needle "".
Proof. unfold is_substring. apply orb_false_r. Qed.

Lemma is_substring_cons (needle : string) (y : ascii) (h : string) :
  is_substring needle (String y h)
  = String.prefix needle (String y h) || is_substring needle h.
Proof. reflexivity. Qed.

Lemma is_substring_iff (needle haystack : string) :
  is_substring needle haystack = true ↔
  ∃ pre post, haystack = pre +:+ needle +:+ post.
Proof.
  induction haystack as [|y h IH].
  - rewrite is_substring_nil, prefix_app_iff. split.
    + intros [post E]. by exists "", post.
    + intros (pre & post & E). symmetry in E.
      apply app_eq_nil_str in E as [-> E]. by exists post.
  - rewrite is_substring_cons, orb_true_iff, prefix_app_iff, IH. split.
    + intros [[post E]|(pre & post & E)].
      * by exists "", post.
      * exists (String y pre), post. rewrite app_cons_str. by f_equal.
    + intros (pre & post & E). destruct pre as [|x pre].
      * left. by exists post.
      * right. rewrite app_cons_str in E. injection E as _ E. by exists pre, post.
Qed.

Lemma is_substring_longer (a b c haystack : string) :
  is_substring (a +:+ b +:+ c) haystack = true → is_substring b haystack = true.
Proof.
  rewrite !is_substring_iff. intros (pre & post & ->).
  exists (pre +:+ a), (c +:+ post). by rewrite !app_assoc_str.
Qed.

(** X1.  A URL is accepted exactly when its scheme is "http" or "https"
    and its network location contains "youtube.com" or "youtu.be"
    somewhere: the "www." and "m." entries of the host list add nothing,
    and a location that merely contains a host name passes. *)
Theorem validate_url_accepts (urlparse : string → exception + string * string)
    (url scheme netloc : string) :
  urlparse url = inr (scheme, netloc) →
  validate_url urlparse url
  = inr (bool_decide (scheme = "http" ∨ scheme = "https")
         && (is_substring "youtube.com" netloc || is_substring "youtu.be" netloc)) ∧
  (validate_url urlparse url = inr true ↔
   (scheme = "http" ∨ scheme = "https") ∧
   ∃ pre post, netloc = pre +:+ "youtube.com" +:+ post
               ∨ netloc = pre +:+ "youtu.be" +:+ post).
Proof.
  intros Hparse.
  assert (E : validate_url urlparse url
    = inr (bool_decide (scheme = "http" ∨ scheme = "https")
           && (is_substring "youtube.com" netloc || is_substring "youtu.be" netloc))).
  { unfold validate_url. rewrite Hparse. f_equal. f_equal.
    - apply bool_decide_ext. rewrite !elem_of_cons, elem_of_nil. tauto.
    - simpl. rewrite orb_false_r.
      destruct (is_substring "youtube.com" netloc) eqn:Y; [done |]. simpl.
      assert (is_substring "www.youtube.com" netloc = false) as ->.
      { apply not_true_is_false. intros H.
        apply (is_substring_longer "www." "youtube.com" "") in H; congruence. }
      assert (is_substring "m.youtube.com" netloc = false) as ->.
      { apply not_true_is_false. intros H.
        apply (is_substring_longer "m." "youtube.com" "") in H; congruence. }
      simpl. by rewrite orb_false_r. }
  split; [done |]. rewrite E. split.
  - intros [= H]. apply andb_true_iff in H as [Hs Hh].
    apply bool_decide_eq_true in Hs. split; [done |].
    apply orb_true_iff in Hh as [(pre & post & ->)%is_substring_iff
                                |(pre & post & ->)%is_substring_iff];
      exists pre, post; [by left | by right].
  - intros [Hs (pre & post & Hn)]. f_equal. apply andb_true_iff. split.
    + by apply bool_decide_eq_true.
    + apply orb_true_iff.
      destruct Hn as [->| ->]; [left | right]; apply is_substring_iff; by exists pre, post.
Qed.

End CommandLine.

Lemma validate_url_accepts_witness :
  validate_url (λ _, inr ("https", "youtube.com.example.org"))
    "https://youtube.com.example.org/watch" = inr true.
Proof.
  destruct (validate_url_accepts (λ _, inr ("https", "youtube.com.example.org"))
              "https://youtube.com.example.org/watch" "https" "youtube.com.example.org"
              eq_refl) as [_ [_ H]].
  apply H. split; [by right |]. exists "", ".example.org". by left.
Defined.

Section Parsing.

Context (urlparse : string → exception + string * string).

Lemma validate_urls_None (todo : list string) :
  validate_urls urlparse todo = None ↔
  ∀ url, url ∈ todo → validate_url urlparse url = inr true.
Proof.
  induction todo as [|url rest IH]; simpl.
  - split; [|done]. intros _ url. by rewrite elem_of_nil.
  - destruct (validate_url urlparse url) as [e|[|]] eqn:E.
    + split; [done |]. intros H. specialize (H url (list_elem_of_here _ _)). congruence.
    + rewrite IH. split.
      * intros H u [->|?]%elem_of_cons; [done | by apply H].
      * intros H u Hu. apply H. by apply list_elem_of_further.
    + split; [done |]. intros H. specialize (H url (list_elem_of_here _ _)). congruence.
Qed.

Lemma validate_urls_first_invalid (before : list string) (url : string)
    (after : list string) :
  (∀ u, u ∈ before → validate_url urlparse u = inr true) →
  validate_url urlparse url = inr false →
  validate_urls urlparse (before ++ url :: after)
  = Some (ParserError ("Invalid YouTube URL: " +:+ url)).
Proof.
  intros Hok Hbad. induction before as [|u rest IH]; simpl.
  - by rewrite Hbad.
  - rewrite (Hok u (list_elem_of_here _ _)). apply IH.
    intros u' Hu'. apply Hok. by apply list_elem_of_further.
Qed.

(** X2.  [parse_arguments] lets a command line through unchanged exactly
    when [--audio-only] and [--video-only] are not both set and every URL
    validates; both flags together are refused before any URL is looked
    at, and otherwise the first URL that does not validate is the one
    named in the error. *)
Theorem parse_arguments_validates (a : Namespace) :
  (audio_only a = true → video_only a = true →
   parse_arguments urlparse a
   = ParserError "--audio-only and --video-only are mutually exclusive") ∧
  (∀ a', parse_arguments urlparse a = Parsed a' ↔
         a' = a ∧ audio_only a && video_only a = false ∧
         ∀ url, url ∈ urls a → validate_url urlparse url = inr true) ∧
  (∀ before url after,
     audio_only a && video_only a = false →
     urls a = before ++ url :: after →
     (∀ u, u ∈ before → validate_url urlparse u = inr true) →
     validate_url urlparse url = inr false →
     parse_arguments urlparse a = ParserError ("Invalid YouTube URL: " +:+ url)).
Proof.
  split_and!.
  - intros Ha Hv. unfold parse_arguments. by rewrite Ha, Hv.
  - intros a'. unfold parse_arguments.
    destruct (audio_only a && video_only a) eqn:Hboth.
    { split; [done | by intros (_ & ? & _)]. }
    destruct (validate_urls urlparse (urls a)) as [stop|] eqn:E.
    + split.
      * intros ->. exfalso. clear Hboth. revert E.
        induction (urls a) as [|u rest IH]; simpl; [done |].
        destruct (validate_url urlparse u) as [e|[|]]; [done | exact IH | done].
      * intros (_ & _ & Hall). apply (proj2 (validate_urls_None _)) in Hall. congruence.
    + pose proof (proj1 (validate_urls_None _) E) as Hall.
      split; [by intros [= <-] | by intros (-> & _)].
  - intros before url after Hboth Hurls Hok Hbad. unfold parse_arguments.
    by rewrite Hboth, Hurls, (validate_urls_first_invalid before url after).
Qed.

End Parsing.

Section ExitStatus.

Context (env : environment).

Lemma roe_check_ffmpeg : raises_only_exceptions (_check_ffmpeg env).
Proof.
  unfold _check_ffmpeg. apply roe_try_except.
  - apply roe_bind; [apply roe_subprocess_run | intros rc; apply roe_ret].
  - intros e h. destruct e; intros [= <-]; apply roe_ret.
Qed.

Lemma roe_init a : raises_only_exceptions (__init__ env a).
Proof.
  unfold __init__. apply roe_bind; [apply roe_check_ffmpeg | intros available].
  apply roe_bind; [| intros _; apply roe_ret].
  apply roe_if; [| apply roe_ret].
  apply roe_bind; [apply roe_print | intros _; apply roe_print].
Qed.

(** How the listing loop can end. *)
Lemma listing_outcome self todo w r w' :
  for_each todo (λ url, list_formats env self url ;; print (nl +:+ str_mul "=" 80)) w
  = (r, w') →
  r = Ok () ∨ r = Raise (SystemExit EXIT_NETWORK_ERROR) ∨ ∃ e, r = Raise (Exc e).
Proof.
  revert w. induction todo as [|url rest IH]; intros w; simpl.
  - intros [= <- _]. by left.
  - unfold bind at 1 2. rewrite list_formats_eval. cbv zeta.
    destruct (extract_info env url list_formats_opts false (fs w)).1 as [e|info].
    + destruct e; intros [= <- _]; eauto.
    + unfold print at 1. apply IH.
Qed.

(** How [run] can end. *)
Lemma run_outcome self w r w' :
  run env self w = (r, w') →
  r = Ok EXIT_SUCCESS ∨ r = Ok EXIT_GENERAL_ERROR
  ∨ r = Raise (SystemExit EXIT_NETWORK_ERROR) ∨ ∃ e, r = Raise (Exc e).
Proof.
  unfold run. destruct (simulate (args self)).
  - unfold bind at 1.
    destruct (for_each _ _ w) as [r0 w0] eqn:E.
    apply listing_outcome in E as [->|[->|[e ->]]]; intros [= <- _]; eauto.
  - unfold bind at 1.
    destruct (download_each_spec env self (urls (args self)) 0 [] w)
      as (results & w1 & _ & ->).
    unfold bind. rewrite print_summary_eq. unfold ret.
    intros [= <- _]. case_match; eauto.
Qed.

(** X3.  Whatever the command line and the collaborators, the process
    ends with status 0, 1 or 2: the statuses 3 ([EXIT_INVALID_INPUT]) and
    4 ([EXIT_MISSING_DEPENDENCY]) are never used, and refused input ends
    with 2, the status of a network error. *)
Theorem exit_status_range (urlparse : string → exception + string * string)
    (a : Namespace) (w : world) :
  let status := (main_from_argv env urlparse a w).1 in
  (status = EXIT_SUCCESS ∨ status = EXIT_GENERAL_ERROR ∨ status = EXIT_NETWORK_ERROR) ∧
  status ≠ EXIT_INVALID_INPUT ∧
  status ≠ EXIT_MISSING_DEPENDENCY ∧
  (∀ message, parse_arguments urlparse a = ParserError message →
              main_from_argv env urlparse a w = (EXIT_NETWORK_ERROR, w)).
Proof.
  intros status.
  assert (H : status = EXIT_SUCCESS ∨ status = EXIT_GENERAL_ERROR
              ∨ status = EXIT_NETWORK_ERROR).
  { unfold status, main_from_argv.
    destruct (parse_arguments urlparse a) as [a'|msg|e]; simpl; [|by eauto..].
    unfold main, bind.
    destruct (__init__ env a' w) as [[self|e] w1] eqn:Ei.
    - destruct (run env self w1) as [r w2] eqn:Er.
      apply run_outcome in Er as [->|[->|[->|[e ->]]]]; simpl; eauto.
    - destruct (roe_init _ _ _ _ Ei) as [x ->]. simpl. eauto. }
  split_and!.
  - done.
  - destruct H as [H|[H|H]]; rewrite H; done.
  - destruct H as [H|[H|H]]; rewrite H; done.
  - intros message Hp. unfold main_from_argv. by rewrite Hp.
Qed.

End ExitStatus.

(** ** Start-up *)

Section Probe.

Context (env : environment).

(** X4.  The probe reports ffmpeg available exactly when the process ran
    and exited with status 0.  A binary that is not found, or a
    [SubprocessError], means unavailable; any other failure to start the
    process is not caught: [main] ends with status 1 and no URL is
    processed. *)
Theorem check_ffmpeg_outcomes (a : Namespace) (w : world) :
  let probed := add_call (SubprocessRun FFMPEG_CHECK_CMD) w in
  (∀ returncode files,
     subprocess env FFMPEG_CHECK_CMD (fs w) = Exited returncode files →
     _check_ffmpeg env w = (Ok (bool_decide (returncode = 0)), set_fs files probed)) ∧
  (∀ e, subprocess env FFMPEG_CHECK_CMD (fs w) = NotStarted e →
        (∃ msg, e = FileNotFoundError msg ∨ e = SubprocessError msg
                ∨ e = CalledProcessError msg) →
        _check_ffmpeg env w = (Ok false, probed)) ∧
  (∀ e, subprocess env FFMPEG_CHECK_CMD (fs w) = NotStarted e →
        (∀ msg, e ≠ FileNotFoundError msg ∧ e ≠ SubprocessError msg
                ∧ e ≠ CalledProcessError msg) →
        main env a w
        = (EXIT_GENERAL_ERROR,
           add_stdout (nl +:+ "Unexpected error: " +:+ str_of_exception e) probed)).
Proof.
  intros probed. split_and!.
  - intros rc files H. unfold _check_ffmpeg, try_except, bind, subprocess_run.
    rewrite H. simpl. unfold ret. f_equal. f_equal.
    destruct (Z.eqb_spec rc 0) as [->|Hne]; [done |].
    by rewrite bool_decide_eq_false_2.
  - intros e H (msg & [->|[->| ->]]);
      unfold _check_ffmpeg, try_except, bind, subprocess_run; by rewrite H.
  - intros e H Hother.
    assert (Hc : _check_ffmpeg env w = (Raise (Exc e), probed)).
    { unfold _check_ffmpeg, try_except, bind, subprocess_run. rewrite H.
      destruct e; try done; by destruct (Hother msg) as (? & ? & ?). }
    unfold main, bind, __init__, bind. by rewrite Hc.
Qed.

End Probe.

Lemma check_ffmpeg_outcomes_witness :
  _check_ffmpeg (Demo.env 1 0) Demo.nothing
  = (Ok false, World ∅ [] [SubprocessRun FFMPEG_CHECK_CMD]).
Proof.
  destruct (check_ffmpeg_outcomes (Demo.env 1 0) Demo.plain_audio Demo.nothing)
    as [H _].
  exact (H 1 ∅ eq_refl).
Defined.

(** ** More of the option dictionary *)

(** One step of a look-up in the dictionary: a case analysis on the test
    of the outermost stage, or the outermost insertion. *)
Ltac dict_step :=
  match goal with
  | |- context [(if ?b then _ else _) !! _] => destruct b
  | |- context [(match ?o with Some _ => _ | None => _ end) !! _] => destruct o
  | |- context [<[?k := _]> _ !! ?k] => rewrite lookup_insert_eq
  | |- context [<[_ := _]> _ !! _] => rewrite lookup_insert_ne by discriminate
  | |- context [∅ !! _] => rewrite lookup_empty
  end.

Section MoreOptions.

(** X5.  The four subtitle options are set together, exactly when
    [--subtitles] is given, and the language list is always the single
    language asked for: the branch for "all" gives the same list as the
    other. *)
Theorem subtitle_options (self : YouTubeDownloader) (temp_dir : string) :
  let opts := _get_ydl_opts self temp_dir in
  (subtitles (args self) = true →
     opts !! "writesubtitles" = Some (VBool true) ∧
     opts !! "writeautomaticsub" = Some (VBool true) ∧
     opts !! "subtitlesformat" = Some (VStr "srt/vtt/best") ∧
     opts !! "subtitleslangs" = Some (VList [VStr (sub_lang (args self))])) ∧
  (subtitles (args self) = false →
     opts !! "writesubtitles" = None ∧
     opts !! "writeautomaticsub" = None ∧
     opts !! "subtitlesformat" = None ∧
     opts !! "subtitleslangs" = None).
Proof.
  intros opts. unfold opts. split.
  - intros Hs. split_and!.
    + unfold _get_ydl_opts; cbv zeta; rewrite Hs; repeat dict_step; reflexivity.
    + unfold _get_ydl_opts; cbv zeta; rewrite Hs; repeat dict_step; reflexivity.
    + unfold _get_ydl_opts; cbv zeta; rewrite Hs; repeat dict_step; reflexivity.
    + unfold _get_ydl_opts; cbv zeta; rewrite Hs.
      destruct (String.eqb_spec (sub_lang (args self)) "all") as [->|_];
        repeat dict_step; reflexivity.
  - intros Hs. split_and!;
      unfold _get_ydl_opts; cbv zeta; rewrite Hs; repeat dict_step; reflexivity.
Qed.

End MoreOptions.

(** ** More of the Embedder *)

Section MoreEmbedder.

Context (env : environment).

(** The clean-up loop on distinct files that are all present: they go,
    and nothing else changes. *)
Lemma for_each_unlink_spec (subs : list (string * string)) (w : world) :
  NoDup subs.*2 → (∀ ls, ls ∈ subs → is_Some (fs w !! ls.2)) →
  ∃ w', for_each subs (λ ls, unlink ls.2) w = (Ok (), w') ∧
        stdout w' = stdout w ∧ calls w' = calls w ∧
        (∀ p, p ∈ subs.*2 → fs w' !! p = None) ∧
        (∀ p, p ∉ subs.*2 → fs w' !! p = fs w !! p).
Proof.
  revert w. induction subs as [|[l s] subs IH]; intros w Hnd Hall; simpl.
  { exists w. split_and!; try done. intros p Hp. by apply elem_of_nil in Hp. }
  simpl in Hnd. apply NoDup_cons in Hnd as [Hs Hnd].
  unfold bind, unlink at 1. simpl.
  destruct (Hall (l, s)) as [c Hc]; [apply list_elem_of_here |]. simpl in Hc.
  rewrite Hc.
  destruct (IH (set_fs (delete s (fs w)) w)) as (w' & Hrun & Hout & Hcalls & Hgone & Hkept).
  - done.
  - intros ls Hls. simpl. rewrite lookup_delete_ne.
    + apply Hall. by apply list_elem_of_further.
    + intros ->. apply Hs. apply list_elem_of_fmap. by exists ls.
  - exists w'. split_and!; try done.
    + intros p [->|Hp]%elem_of_cons; [|by apply Hgone].
      rewrite Hkept by done. simpl. apply lookup_delete_eq.
    + intros p Hp. apply not_elem_of_cons in Hp as [Hne Hp].
      rewrite Hkept by done. simpl. by rewrite lookup_delete_ne.
Qed.

(** X7.  When the remux process exits with status 0 and has written its
    output, the Embedder puts the output in the video's place, removes
    the temporary file and every side-car file it used, and leaves all
    other files alone.  (The video's container is not itself a caption
    format, and the process wrote nowhere but to its output file.) *)
Theorem embed_remux_success (self : YouTubeDownloader)
    (video base_path temp_output : string) (info : info_dict) (w : world)
    (files : gmap string string) (muxed : string) :
  let subtitle_files :=
    find_subtitle_files (fs w) base_path (caption_languages env info) in
  let cmd := ffmpeg_cmd (overwrite (args self)) video subtitle_files temp_output in
  is_Some (fs w !! video) →
  with_suffix video "" = Ok base_path →
  with_suffix video (".temp" +:+ suffix video) = Ok temp_output →
  subtitle_files ≠ [] →
  suffix video ∉ SUPPORTED_SUBTITLE_FORMATS →
  set_order_sound env →
  subprocess env cmd (fs w) = Exited 0 files →
  files !! temp_output = Some muxed →
  (∀ p, p ≠ temp_output → files !! p = fs w !! p) →
  ∃ w', _embed_subtitles env self video info w = (Ok video, w') ∧
        fs w' !! video = Some muxed ∧
        fs w' !! temp_output = None ∧
        (∀ lang sub_file, (lang, sub_file) ∈ subtitle_files → fs w' !! sub_file = None) ∧
        (∀ p, p ≠ video → p ≠ temp_output → p ∉ subtitle_files.*2 →
              fs w' !! p = fs w !! p) ∧
        calls w' = calls w ++ [SubprocessRun cmd] ∧
        stdout w'
        = stdout w ++ ["Embedding " +:+ str_of_nat (length subtitle_files)
                         +:+ " subtitle track(s)...";
                       "✓ Subtitles embedded successfully"].
Proof.
  intros found cmd Hv Hb Ht Hne Hsx Hset Hcmd Hmuxed Hkeep.
  destruct (with_suffix_empty_inv _ _ Hb) as (d & st & sx & Hp & ->).
  pose proof Ht as Ht'.
  rewrite (with_suffix_temp _ _ _ _ Hp) in Ht'. injection Ht' as <-.
  rewrite (parts_suffix_eq _ _ _ _ Hp) in Hsx.
  set (base := d +:+ st) in *. set (temp := d +:+ st +:+ ".temp" +:+ sx) in *.
  assert (Hnd : NoDup (caption_languages env info)) by apply Hset.
  assert (Hvt : temp ≠ video) by apply (temp_ne_video _ _ _ _ Hp).
  assert (Hsubs : ∀ lang sub, (lang, sub) ∈ found →
            sub ≠ video ∧ sub ≠ temp ∧ is_Some (fs w !! sub)).
  { intros lang sub Hin. apply found_sub_file in Hin as (_ & Hsome & ext & Hext & ->).
    split_and!; [by apply (sub_ne_video _ _ _ sx) | by apply (sub_ne_temp video) | done]. }
  unfold _embed_subtitles, bind, path_exists.
  rewrite bool_decide_eq_true_2 by done. simpl.
  unfold lift. rewrite Hb. unfold get_world. fold found.
  destruct found as [|ls rest] eqn:Ef; [done |].
  rewrite Ht. fold cmd.
  unfold try_except, subprocess_run. simpl. rewrite Hcmd. simpl.
  rewrite bool_decide_eq_true_2 by (by exists muxed). simpl.
  unfold unlink at 1. simpl.
  rewrite (Hkeep video) by done. destruct Hv as [cv Hv]. rewrite Hv. simpl.
  unfold rename. simpl. rewrite lookup_delete_ne by done. rewrite Hmuxed. simpl.
  match goal with |- context [bind (unlink ls.2) ?k ?w0] =>
    change (bind (unlink ls.2) k w0)
      with (for_each (ls :: rest) (λ ls0 : string * string, unlink ls0.2) w0);
    destruct (for_each_unlink_spec (ls :: rest) w0)
      as (w1 & Hw1 & Hout & Hcalls & Hgone & Hkept) end.
  - rewrite <- Ef. by apply found_NoDup_snd.
  - intros [lang sub] Hin. simpl.
    destruct (Hsubs lang sub Hin) as (? & ? & ?).
    rewrite lookup_insert_ne by done. rewrite !lookup_delete_ne by done.
    by rewrite Hkeep.
  - rewrite Hw1. exists w1. split; [done |]. split_and!.
    + rewrite Hkept; [simpl; apply lookup_insert_eq |].
      intros ([lang sub] & E & Hin)%list_elem_of_fmap. simpl in E. subst sub.
      by destruct (Hsubs lang video Hin) as (? & _).
    + rewrite Hkept.
      * simpl. rewrite lookup_insert_ne by done. apply lookup_delete_eq.
      * intros ([lang sub] & E & Hin)%list_elem_of_fmap. simpl in E. subst sub.
        by destruct (Hsubs lang temp Hin) as (_ & ? & _).
    + intros lang sub Hin. apply Hgone. apply list_elem_of_fmap. by exists (lang, sub).
    + intros p Hpv Hpt Hps. rewrite Hkept by done. simpl.
      rewrite lookup_insert_ne by done. rewrite !lookup_delete_ne by done.
      by apply Hkeep.
    + by rewrite Hcalls.
    + rewrite Hout. simpl. by rewrite <- app_assoc.
Qed.

(** X8.  When the remux process exits with status 0 but leaves no output
    file, the Embedder changes nothing of its own: the video and the
    side-car files stay as the process left them, no success line is
    printed, and the path given is returned. *)
Theorem embed_remux_no_output (self : YouTubeDownloader)
    (video base_path temp_output : string) (info : info_dict) (w : world)
    (files : gmap string string) :
  let subtitle_files :=
    find_subtitle_files (fs w) base_path (caption_languages env info) in
  let cmd := ffmpeg_cmd (overwrite (args self)) video subtitle_files temp_output in
  is_Some (fs w !! video) →
  with_suffix video "" = Ok base_path →
  with_suffix video (".temp" +:+ suffix video) = Ok temp_output →
  subtitle_files ≠ [] →
  subprocess env cmd (fs w) = Exited 0 files →
  files !! temp_output = None →
  _embed_subtitles env self video info w
  = (Ok video,
     World files
           (stdout w ++ ["Embedding " +:+ str_of_nat (length subtitle_files)
                           +:+ " subtitle track(s)..."])
           (calls w ++ [SubprocessRun cmd])).
Proof.
  intros found cmd Hv Hb Ht Hne Hcmd Hnone.
  unfold _embed_subtitles, bind, path_exists.
  rewrite bool_decide_eq_true_2 by done. simpl.
  unfold lift. rewrite Hb. unfold get_world. fold found.
  destruct found as [|ls rest] eqn:Ef; [done |].
  rewrite Ht. fold cmd.
  unfold try_except, subprocess_run. simpl. rewrite Hcmd. simpl.
  rewrite bool_decide_eq_false_2; [done |]. rewrite Hnone. by intros [? ?].
Qed.

(** X9.  When the remux process cannot be started, the exception leaves
    the Embedder (its [except] clause names [CalledProcessError] only),
    with no file touched; [download_video] then reports the URL as failed
    although the video has been downloaded. *)
Theorem embed_process_not_started (self : YouTubeDownloader)
    (video base_path temp_output : string) (info : info_dict) (w : world)
    (e : exception) (msg : string) :
  let subtitle_files :=
    find_subtitle_files (fs w) base_path (caption_languages env info) in
  let cmd := ffmpeg_cmd (overwrite (args self)) video subtitle_files temp_output in
  is_Some (fs w !! video) →
  with_suffix video "" = Ok base_path →
  with_suffix video (".temp" +:+ suffix video) = Ok temp_output →
  subtitle_files ≠ [] →
  subprocess env cmd (fs w) = NotStarted e →
  e = FileNotFoundError msg ∨ e = OSError msg →
  _embed_subtitles env self video info w
  = (Raise (Exc e),
     World (fs w)
           (stdout w ++ ["Embedding " +:+ str_of_nat (length subtitle_files)
                           +:+ " subtitle track(s)..."])
           (calls w ++ [SubprocessRun cmd])) ∧
  (∀ url w0 w1,
     download_attempt env self url (_get_ydl_opts self (mkdtemp env (fs w0))) w0
     = (Raise (Exc e), w1) →
     download_video env self url w0
     = (Ok None, remove_tree (mkdtemp env (fs w0))
                   (add_stdout ("Unexpected error: " +:+ msg) w1))).
Proof.
  intros found cmd Hv Hb Ht Hne Hcmd He. split.
  - unfold _embed_subtitles, bind, path_exists.
    rewrite bool_decide_eq_true_2 by done. simpl.
    unfold lift. rewrite Hb. unfold get_world. fold found.
    destruct found as [|ls rest] eqn:Ef; [done |].
    rewrite Ht. fold cmd.
    unfold try_except, subprocess_run. simpl. rewrite Hcmd. simpl.
    by destruct He as [-> | ->].
  - intros url w0 w1 H. rewrite (download_video_caught env self url w0 e w1 H).
    by destruct He as [-> | ->].
Qed.

End MoreEmbedder.

(** ** The remux command line *)

Section CommandLayout.

Lemma concat_pairs_length {A} (ll : list (list A)) :
  Forall (λ x, length x = 2%nat) ll → length (concat ll) = (2 * length ll)%nat.
Proof.
  induction 1 as [|x ll Hx _ IH]; [done |].
  simpl. rewrite length_app, IH, Hx. lia.
Qed.

Lemma concat_pairs_lookup {A} (ll : list (list A)) (i j : nat) :
  Forall (λ x, length x = 2%nat) ll → (j < 2)%nat →
  concat ll !! (2 * i + j)%nat = ll !! i ≫= (λ x, x !! j).
Proof.
  intros Hall Hj. revert i. induction Hall as [|x ll Hx _ IH]; intros i.
  { simpl. by rewrite !lookup_nil. }
  destruct x as [|a [|b [|? ?]]]; try done.
  change (concat ([a; b] :: ll)) with (a :: b :: concat ll).
  destruct i as [|i].
  - destruct j as [|[|?]]; [done | done | lia].
  - replace (2 * S i + j)%nat with (S (S (2 * i + j))) by lia.
    change ((a :: b :: concat ll) !! S (S (2 * i + j))%nat)
      with (concat ll !! (2 * i + j)%nat).
    apply IH.
Qed.

(** X10.  The remux command has 11 words and 6 more per caption file, and
    every one of them is fixed: "ffmpeg -i video", one "-i file" per
    caption, "-map 0:v -map 0:a", one "-map (i+1):s" per caption, one
    "-metadata:s:s:i language=lang" per caption, "-c copy", and last "-y"
    when overwriting and "-n" otherwise, followed by the output file.
    Caption number i (from 0) is input i+1 and subtitle stream i of the
    output. *)
Theorem ffmpeg_cmd_layout (overwrite_flag : bool) (video temp_output : string)
    (subtitle_files : list (string * string)) :
  let count := length subtitle_files in
  let cmd := ffmpeg_cmd overwrite_flag video subtitle_files temp_output in
  length cmd = (11 + 6 * count)%nat ∧
  take 3 cmd = ["ffmpeg"; "-i"; video] ∧
  cmd !! (3 + 2 * count)%nat = Some "-map" ∧
  cmd !! (4 + 2 * count)%nat = Some "0:v" ∧
  cmd !! (5 + 2 * count)%nat = Some "-map" ∧
  cmd !! (6 + 2 * count)%nat = Some "0:a" ∧
  cmd !! (7 + 6 * count)%nat = Some "-c" ∧
  cmd !! (8 + 6 * count)%nat = Some "copy" ∧
  cmd !! (9 + 6 * count)%nat = Some (if overwrite_flag then "-y" else "-n") ∧
  cmd !! (10 + 6 * count)%nat = Some temp_output ∧
  ∀ i lang sub_file,
    subtitle_files !! i = Some (lang, sub_file) →
    cmd !! (3 + 2 * i)%nat = Some "-i" ∧
    cmd !! (4 + 2 * i)%nat = Some sub_file ∧
    cmd !! (7 + 2 * count + 2 * i)%nat = Some "-map" ∧
    cmd !! (8 + 2 * count + 2 * i)%nat = Some (str_of_nat (i + 1) +:+ ":s") ∧
    cmd !! (7 + 4 * count + 2 * i)%nat = Some ("-metadata:s:s:" +:+ str_of_nat i) ∧
    cmd !! (8 + 4 * count + 2 * i)%nat = Some ("language=" +:+ lang).
Proof.
  intros count cmd. unfold cmd, ffmpeg_cmd. cbv zeta.
  set (head := ["ffmpeg"; "-i"; video]).
  set (inputs := concat ((λ ls : string * string, ["-i"; ls.2]) <$> subtitle_files)).
  set (first_input := ["-map"; "0:v"; "-map"; "0:a"]).
  set (maps := concat ((λ i, ["-map"; str_of_nat (i + 1) +:+ ":s"])
                         <$> seq 0 (length subtitle_files))).
  set (tags := concat (imap (λ i (ls : string * string),
                               ["-metadata:s:s:" +:+ str_of_nat i;
                                "language=" +:+ ls.1]) subtitle_files)).
  set (codec := ["-c"; "copy"]).
  set (output := [if overwrite_flag then "-y" else "-n"; temp_output]).
  rewrite <- !app_assoc.
  assert (Hin : Forall (λ x : list string, length x = 2%nat)
                  ((λ ls : string * string, ["-i"; ls.2]) <$> subtitle_files))
    by (by apply Forall_fmap, Forall_true).
  assert (Hmap : Forall (λ x : list string, length x = 2%nat)
                   ((λ i, ["-map"; str_of_nat (i + 1) +:+ ":s"])
                      <$> seq 0 (length subtitle_files)))
    by (by apply Forall_fmap, Forall_true).
  assert (Htag : Forall (λ x : list string, length x = 2%nat)
                   (imap (λ i (ls : string * string),
                            ["-metadata:s:s:" +:+ str_of_nat i;
                             "language=" +:+ ls.1]) subtitle_files)).
  { apply Forall_forall. intros x Hx. apply list_elem_of_lookup in Hx as [i Hi].
    rewrite list_lookup_imap in Hi.
    destruct (subtitle_files !! i); simpl in Hi; by simplify_eq. }
  assert (Lh : length head = 3%nat) by done.
  assert (Lf : length first_input = 4%nat) by done.
  assert (Lc : length codec = 2%nat) by done.
  assert (Lo : length output = 2%nat) by done.
  assert (Li : length inputs = (2 * count)%nat).
  { unfold inputs. rewrite concat_pairs_length by done. by rewrite length_fmap. }
  assert (Lm : length maps = (2 * count)%nat).
  { unfold maps. rewrite concat_pairs_length by done.
    by rewrite length_fmap, length_seq. }
  assert (Lt : length tags = (2 * count)%nat).
  { unfold tags. rewrite concat_pairs_length by done. by rewrite length_imap. }
  assert (Hat : ∀ (k : nat) (part rest : list string) (x : string),
            part !! k = Some x → (part ++ rest) !! k = Some x).
  { intros k part rest x Hk. by apply lookup_app_l_Some. }
  assert (Hskip : ∀ (k j : nat) (part rest : list string),
            k = (length part + j)%nat → (part ++ rest) !! k = rest !! j).
  { intros k j part rest ->. rewrite lookup_app_r by lia. f_equal. lia. }
  assert (Hlt : ∀ i x, subtitle_files !! i = Some x → (i < count)%nat)
    by (intros i x Hi; by eapply lookup_lt_Some).
  assert (Ein : ∀ i lang sub_file, subtitle_files !! i = Some (lang, sub_file) →
            inputs !! (2 * i + 0)%nat = Some "-i"
            ∧ inputs !! (2 * i + 1)%nat = Some sub_file).
  { intros i lang sub_file Hi. unfold inputs.
    rewrite !concat_pairs_lookup by (done || lia).
    by rewrite list_lookup_fmap, Hi. }
  assert (Emap : ∀ i, (i < count)%nat →
            maps !! (2 * i + 0)%nat = Some "-map"
            ∧ maps !! (2 * i + 1)%nat = Some (str_of_nat (i + 1) +:+ ":s")).
  { intros i Hi. unfold maps.
    rewrite !concat_pairs_lookup by (done || lia).
    by rewrite list_lookup_fmap, lookup_seq_lt. }
  assert (Etag : ∀ i lang sub_file, subtitle_files !! i = Some (lang, sub_file) →
            tags !! (2 * i + 0)%nat = Some ("-metadata:s:s:" +:+ str_of_nat i)
            ∧ tags !! (2 * i + 1)%nat = Some ("language=" +:+ lang)).
  { intros i lang sub_file Hi. unfold tags.
    rewrite !concat_pairs_lookup by (done || lia).
    by rewrite list_lookup_imap, Hi. }
  assert (Ef : ∀ j x, ["-map"; "0:v"; "-map"; "0:a"] !! j = Some x →
                      first_input !! j = Some x) by done.
  assert (Ec : ∀ j x, ["-c"; "copy"] !! j = Some x → codec !! j = Some x) by done.
  clearbody head first_input codec inputs maps tags count.
  assert (Hfirst : ∀ j x, ["-map"; "0:v"; "-map"; "0:a"] !! j = Some x →
            (head ++ inputs ++ first_input ++ maps ++ tags ++ codec ++ output)
              !! (3 + 2 * count + j)%nat = Some x).
  { intros j x Hj.
    rewrite (Hskip _ (2 * count + j)%nat) by lia.
    rewrite (Hskip _ j) by lia. by apply Hat, Ef. }
  assert (Hcodec : ∀ j x, ["-c"; "copy"] !! j = Some x →
            (head ++ inputs ++ first_input ++ maps ++ tags ++ codec ++ output)
              !! (7 + 6 * count + j)%nat = Some x).
  { intros j x Hj.
    rewrite (Hskip _ (4 + 6 * count + j)%nat) by lia.
    rewrite (Hskip _ (4 + 4 * count + j)%nat) by lia.
    rewrite (Hskip _ (4 * count + j)%nat) by lia.
    rewrite (Hskip _ (2 * count + j)%nat) by lia.
    rewrite (Hskip _ j) by lia. by apply Hat, Ec. }
  split_and!.
  - rewrite !length_app, Lh, Li, Lf, Lm, Lt, Lc, Lo. lia.
  - destruct head as [|a [|b [|c [|? ?]]]]; try done.
  - replace (3 + 2 * count)%nat with (3 + 2 * count + 0)%nat by lia. by apply Hfirst.
  - replace (4 + 2 * count)%nat with (3 + 2 * count + 1)%nat by lia. by apply Hfirst.
  - replace (5 + 2 * count)%nat with (3 + 2 * count + 2)%nat by lia. by apply Hfirst.
  - replace (6 + 2 * count)%nat with (3 + 2 * count + 3)%nat by lia. by apply Hfirst.
  - replace (7 + 6 * count)%nat with (7 + 6 * count + 0)%nat by lia. by apply Hcodec.
  - replace (8 + 6 * count)%nat with (7 + 6 * count + 1)%nat by lia. by apply Hcodec.
  - rewrite (Hskip _ (6 + 6 * count)%nat) by lia.
    rewrite (Hskip _ (6 + 4 * count)%nat) by lia.
    rewrite (Hskip _ (2 + 4 * count)%nat) by lia.
    rewrite (Hskip _ (2 + 2 * count)%nat) by lia.
    rewrite (Hskip _ 2%nat) by lia.
    by rewrite (Hskip _ 0%nat) by lia.
  - rewrite (Hskip _ (7 + 6 * count)%nat) by lia.
    rewrite (Hskip _ (7 + 4 * count)%nat) by lia.
    rewrite (Hskip _ (3 + 4 * count)%nat) by lia.
    rewrite (Hskip _ (3 + 2 * count)%nat) by lia.
    rewrite (Hskip _ 3%nat) by lia.
    by rewrite (Hskip _ 1%nat) by lia.
  - intros i lang sub_file Hi.
    destruct (Ein i lang sub_file Hi) as [Ei0 Ei1].
    destruct (Emap i (Hlt _ _ Hi)) as [Em0 Em1].
    destruct (Etag i lang sub_file Hi) as [Et0 Et1].
    pose proof (Hlt _ _ Hi).
    split_and!.
    + rewrite (Hskip _ (2 * i + 0)%nat) by lia. by apply Hat.
    + rewrite (Hskip _ (2 * i + 1)%nat) by lia. by apply Hat.
    + rewrite (Hskip _ (4 + 2 * count + 2 * i)%nat) by lia.
      rewrite (Hskip _ (4 + 2 * i)%nat) by lia.
      rewrite (Hskip _ (2 * i + 0)%nat) by lia. by apply Hat.
    + rewrite (Hskip _ (5 + 2 * count + 2 * i)%nat) by lia.
      rewrite (Hskip _ (5 + 2 * i)%nat) by lia.
      rewrite (Hskip _ (2 * i + 1)%nat) by lia. by apply Hat.
    + rewrite (Hskip _ (4 + 4 * count + 2 * i)%nat) by lia.
      rewrite (Hskip _ (4 + 2 * count + 2 * i)%nat) by lia.
      rewrite (Hskip _ (2 * count + 2 * i)%nat) by lia.
      rewrite (Hskip _ (2 * i + 0)%nat) by lia. by apply Hat.
    + rewrite (Hskip _ (5 + 4 * count + 2 * i)%nat) by lia.
      rewrite (Hskip _ (5 + 2 * count + 2 * i)%nat) by lia.
      rewrite (Hskip _ (1 + 2 * count + 2 * i)%nat) by lia.
      rewrite (Hskip _ (2 * i + 1)%nat) by lia. by apply Hat.
Qed.

End CommandLayout.

(** ** What is asked of the collaborators *)

Section Calls.

Context (env : environment).

Lemma ram_keeps {A} (m : M A) :
  (∀ w r w', m w = (r, w') → calls w' = calls w) → runs_at_most 0 m.
Proof.
  intros H w r w' E. exists []. rewrite (H _ _ _ E). simpl.
  by rewrite app_nil_r.
Qed.

Lemma ram_ret {A} (a : A) : runs_at_most 0 (ret a).
Proof. apply ram_keeps. by intros w r w' [= _ <-]. Qed.

Lemma ram_print s : runs_at_most 0 (print s).
Proof. apply ram_keeps. by intros w r w' [= _ <-]. Qed.

Lemma ram_get_world : runs_at_most 0 get_world.
Proof. apply ram_keeps. by intros w r w' [= _ <-]. Qed.

Lemma ram_path_exists p : runs_at_most 0 (path_exists p).
Proof. apply ram_keeps. by intros w r w' [= _ <-]. Qed.

Lemma ram_lift {A} (o : outcome A) : runs_at_most 0 (lift o).
Proof. apply ram_keeps. by intros w r w' [= _ <-]. Qed.

Lemma ram_unlink p : runs_at_most 0 (unlink p).
Proof.
  apply ram_keeps. intros w r w'. unfold unlink.
  case_match; by intros [= _ <-].
Qed.

Lemma ram_rename p q : runs_at_most 0 (rename p q).
Proof.
  apply ram_keeps. intros w r w'. unfold rename.
  case_match; by intros [= _ <-].
Qed.

Lemma ram_subprocess_run cmd check : runs_at_most 1 (subprocess_run env cmd check).
Proof.
  intros w r w'. unfold subprocess_run. intros H. exists [cmd]. split; [|done].
  destruct (subprocess env cmd (fs w)); [case_match |]; by injection H as _ <-.
Qed.

Lemma ram_mono {A} (k k' : nat) (m : M A) :
  (k ≤ k')%nat → runs_at_most k m → runs_at_most k' m.
Proof.
  intros Hk Hm w r w' E. destruct (Hm _ _ _ E) as (cmds & ? & ?).
  exists cmds. split; [done | lia].
Qed.

Lemma ram_bind {A B} (k1 k2 : nat) (m : M A) (f : A → M B) :
  runs_at_most k1 m → (∀ a, runs_at_most k2 (f a)) →
  runs_at_most (k1 + k2) (bind m f).
Proof.
  intros Hm Hf w r w'. unfold bind. destruct (m w) as [[a|e] w1] eqn:E.
  - intros E2. destruct (Hm _ _ _ E) as (c1 & H1 & L1).
    destruct (Hf a _ _ _ E2) as (c2 & H2 & L2).
    exists (c1 ++ c2). rewrite H2, H1, fmap_app, length_app, <- app_assoc.
    split; [done | lia].
  - intros [= <- <-]. destruct (Hm _ _ _ E) as (c1 & H1 & L1).
    exists c1. split; [done | lia].
Qed.

Lemma ram_try_except {A} (k1 k2 : nat) (body : M A) handler :
  runs_at_most k1 body →
  (∀ e h, handler e = Some h → runs_at_most k2 h) →
  runs_at_most (k1 + k2) (try_except body handler).
Proof.
  intros Hb Hh w r w'. unfold try_except.
  destruct (body w) as [[a|e] w1] eqn:E.
  - intros [= <- <-]. destruct (Hb _ _ _ E) as (c1 & H1 & L1).
    exists c1. split; [done | lia].
  - destruct (Hb _ _ _ E) as (c1 & H1 & L1).
    destruct e as [e| |code]; try (intros [= <- <-]; exists c1; split; [done | lia]).
    destruct (handler e) as [h|] eqn:Eh.
    + intros E2. destruct (Hh _ _ Eh _ _ _ E2) as (c2 & H2 & L2).
      exists (c1 ++ c2). rewrite H2, H1, fmap_app, length_app, <- app_assoc.
      split; [done | lia].
    + intros [= <- <-]. exists c1. split; [done | lia].
Qed.

Lemma ram_for_each {A} (l : list A) body :
  (∀ a, runs_at_most 0 (body a)) → runs_at_most 0 (for_each l body).
Proof.
  intros Hb. induction l as [|a l IH]; simpl; [apply ram_ret |].
  apply (ram_bind 0 0); [apply Hb | done].
Qed.

Lemma ram_if {A} (k : nat) (b : bool) (m1 m2 : M A) :
  runs_at_most k m1 → runs_at_most k m2 → runs_at_most k (if b then m1 else m2).
Proof. by destruct b. Qed.

(** The Embedder asks nothing of the engine and runs one process at most. *)
Lemma ram_embed_subtitles self video info :
  runs_at_most 1 (_embed_subtitles env self video info).
Proof.
  unfold _embed_subtitles.
  apply (ram_bind 0 1); [apply ram_path_exists | intros present].
  apply ram_if.
  { apply (ram_mono 0); [lia |].
    apply (ram_bind 0 0); [apply ram_print | intros _; apply ram_ret]. }
  apply (ram_bind 0 1); [apply ram_lift | intros base_path].
  apply (ram_bind 0 1); [apply ram_get_world | intros w0].
  destruct (find_subtitle_files _ _ _) as [|ls rest].
  { apply (ram_mono 0); [lia |].
    apply (ram_bind 0 0); [apply ram_print | intros _; apply ram_ret]. }
  apply (ram_bind 0 1); [apply ram_print | intros _].
  apply (ram_bind 0 1); [apply ram_lift | intros temp_output].
  apply (ram_bind 1 0); [| intros _; apply ram_ret].
  apply (ram_try_except 1 0).
  - apply (ram_bind 1 0); [apply ram_subprocess_run | intros _].
    apply (ram_bind 0 0); [apply ram_path_exists | intros produced].
    apply ram_if; [| apply ram_ret].
    apply (ram_bind 0 0); [apply ram_unlink | intros _].
    apply (ram_bind 0 0); [apply ram_rename | intros _].
    apply (ram_bind 0 0); [apply ram_print | intros _].
    apply ram_for_each. intros a. apply ram_unlink.
  - intros e h. destruct e; intros [= <-].
    apply (ram_bind 0 0); [apply ram_print | intros _].
    apply (ram_bind 0 0); [apply ram_path_exists | intros leftover].
    apply ram_if; [apply ram_unlink | apply ram_ret].
Qed.

(** What follows the engine's answer in an attempt. *)
Lemma download_attempt_calls self url opts w r w' :
  download_attempt env self url opts w = (r, w') →
  ∃ cmds,
    calls w' = calls w ++ ExtractInfo url opts (negb (simulate (args self)))
                          :: (SubprocessRun <$> cmds) ∧
    (length cmds ≤ 1)%nat ∧
    (embed_subs (args self) && subtitles (args self) && ffmpeg_available self = false →
     cmds = []).
Proof.
  unfold download_attempt.
  set (guard := embed_subs (args self) && subtitles (args self) && ffmpeg_available self).
  set (bound := if guard then 1%nat else 0%nat).
  unfold bind at 1.
  destruct ((if negb (quiet (args self)) then print _ else ret ()) w) as [[[]|e] w1] eqn:E1;
    cycle 1.
  { destruct (quiet (args self)); simpl in E1; discriminate. }
  assert (Hc1 : calls w1 = calls w).
  { destruct (quiet (args self)); simpl in E1; by injection E1 as <-. }
  unfold bind at 1. unfold ydl_extract_info at 1.
  destruct (extract_info env url opts (negb (simulate (args self))) (fs w1))
    as [[e|info] files] eqn:E2.
  - intros [= <- <-]. exists []. simpl. rewrite Hc1. split_and!; [done | lia | done].
  - intros E3.
    assert (Hrest : runs_at_most bound
      (if simulate (args self)
       then print (nl +:+ "[DRY RUN] Would download:") ;;
            print ("  Title: " +:+ default "Unknown" (info_title info)) ;;
            do selector <- lift (getitem_str opts "format");
            print ("  Format: " +:+ selector) ;;
            print ("  Output directory: " +:+ self_output_dir self) ;;
            ret None
       else
         do filename <- ydl_prepare_filename env opts info;
         do output_path <- lift (expected_output_path self filename);
         do output_path <-
           (if guard then _embed_subtitles env self output_path info
            else ret output_path);
         do present <- path_exists output_path;
         if present
         then print ("✓ Downloaded: " +:+ output_path) ;; ret (Some output_path)
         else print ("Warning: Expected file not found: " +:+ output_path) ;;
              ret None)).
    { apply ram_if.
      - apply (ram_mono 0); [lia |].
        apply (ram_bind 0 0); [apply ram_print | intros _].
        apply (ram_bind 0 0); [apply ram_print | intros _].
        apply (ram_bind 0 0); [apply ram_lift | intros selector].
        apply (ram_bind 0 0); [apply ram_print | intros _].
        apply (ram_bind 0 0); [apply ram_print | intros _]. apply ram_ret.
      - apply (ram_bind 0 bound); [apply ram_lift | intros filename].
        apply (ram_bind 0 bound); [apply ram_lift | intros output_path].
        replace bound with (bound + 0)%nat by lia.
        apply (ram_bind bound 0).
        + unfold bound. destruct guard; [apply ram_embed_subtitles | apply ram_ret].
        + intros output_path'.
          apply (ram_bind 0 0); [apply ram_path_exists | intros present].
          apply ram_if; (apply (ram_bind 0 0); [apply ram_print | intros _; apply ram_ret]). }
    destruct (Hrest _ _ _ E3) as (cmds & Hc & Hl). exists cmds. split_and!.
    + rewrite Hc. simpl. rewrite Hc1. by rewrite <- app_assoc.
    + unfold bound in Hl. destruct guard; lia.
    + intros Hg. unfold bound in Hl. rewrite Hg in Hl.
      destruct cmds; [done | simpl in Hl; lia].
Qed.

(** X11.  One download asks the engine once, for the URL it was given,
    and then runs one process at most: the remux, and only when
    [--embed-subs] and [--subtitles] were given and ffmpeg is available. *)
Theorem download_video_calls (self : YouTubeDownloader) (url : string) (w : world) :
  ∃ result w' cmds,
    download_video env self url w = (Ok result, w') ∧
    calls w' = calls w ++ ExtractInfo url (_get_ydl_opts self (mkdtemp env (fs w)))
                            (negb (simulate (args self)))
                          :: (SubprocessRun <$> cmds) ∧
    (length cmds ≤ 1)%nat ∧
    (embed_subs (args self) && subtitles (args self) && ffmpeg_available self = false →
     cmds = []).
Proof.
  destruct (download_attempt env self url (_get_ydl_opts self (mkdtemp env (fs w))) w)
    as [[r|e] w1] eqn:E.
  - destruct (download_attempt_calls _ _ _ _ _ _ E) as (cmds & Hc & Hl & Hn).
    rewrite (download_video_returned _ _ _ _ _ _ E). by eexists r, _, cmds.
  - destruct (download_attempt_calls _ _ _ _ _ _ E) as (cmds & Hc & Hl & Hn).
    destruct (roe_download_attempt _ _ _ _ _ _ _ E) as [x ->].
    rewrite (download_video_caught _ _ _ _ _ _ E). by eexists None, _, cmds.
Qed.

Lemma engine_urls_app l1 l2 : engine_urls (l1 ++ l2) = engine_urls l1 ++ engine_urls l2.
Proof. unfold engine_urls. apply omap_app. Qed.

Lemma commands_run_app l1 l2 :
  commands_run (l1 ++ l2) = commands_run l1 ++ commands_run l2.
Proof. unfold commands_run. apply omap_app. Qed.

Lemma engine_urls_subprocesses cmds : engine_urls (SubprocessRun <$> cmds) = [].
Proof. unfold engine_urls. induction cmds as [|c cmds IH]; [done | by csimpl]. Qed.

Lemma commands_run_subprocesses cmds : commands_run (SubprocessRun <$> cmds) = cmds.
Proof.
  unfold commands_run. induction cmds as [|c cmds IH]; [done |].
  csimpl. by rewrite IH.
Qed.

Lemma download_each_calls self todo success_count failed_urls w r w' :
  download_each env self todo success_count failed_urls w = (r, w') →
  ∃ new, calls w' = calls w ++ new ∧
         engine_urls new = todo ∧
         (length (commands_run new) ≤ length todo)%nat ∧
         (embed_subs (args self) && subtitles (args self) && ffmpeg_available self = false →
          commands_run new = []).
Proof.
  revert success_count failed_urls w.
  induction todo as [|url rest IH]; intros sc failed w; simpl.
  - intros [= _ <-]. exists []. rewrite app_nil_r. split_and!; [done | done | simpl; lia | done].
  - unfold bind.
    destruct (download_video_calls self url w) as (res & w1 & cmds & Hd & Hc & Hl & Hn).
    rewrite Hd. intros E.
    assert (∃ new, calls w' = calls w1 ++ new ∧ engine_urls new = rest ∧
              (length (commands_run new) ≤ length rest)%nat ∧
              (embed_subs (args self) && subtitles (args self)
               && ffmpeg_available self = false → commands_run new = []))
      as (new & Hc' & Hu & Hk & Hz).
    { destruct (truthy_opt_str res); by eapply IH. }
    exists (ExtractInfo url (_get_ydl_opts self (mkdtemp env (fs w)))
              (negb (simulate (args self))) :: (SubprocessRun <$> cmds) ++ new).
    split_and!.
    + rewrite Hc', Hc, <- app_assoc. done.
    + simpl. rewrite engine_urls_app, engine_urls_subprocesses, Hu. done.
    + simpl. rewrite commands_run_app, commands_run_subprocesses, length_app. lia.
    + intros Hg. simpl.
      rewrite commands_run_app, commands_run_subprocesses, (Hn Hg), (Hz Hg). done.
Qed.

(** X12.  In download mode every URL of the batch is attempted once, in
    the order given, whatever happens to the others; the media binary is
    run once per URL at most, and not at all unless embedding was asked
    for and ffmpeg is available. *)
Theorem run_attempts_every_url (self : YouTubeDownloader) (w : world) :
  simulate (args self) = false →
  ∃ exit_code w' new,
    run env self w = (Ok exit_code, w') ∧
    calls w' = calls w ++ new ∧
    engine_urls new = urls (args self) ∧
    (length (commands_run new) ≤ length (urls (args self)))%nat ∧
    (embed_subs (args self) && subtitles (args self) && ffmpeg_available self = false →
     commands_run new = []).
Proof.
  intros Hsim. unfold run. rewrite Hsim. unfold bind at 1.
  destruct (download_each_spec env self (urls (args self)) 0 [] w)
    as (results & w1 & _ & He).
  rewrite He.
  destruct (download_each_calls _ _ _ _ _ _ _ He) as (new & Hc & Hu & Hk & Hz).
  unfold bind. rewrite print_summary_eq. unfold ret.
  eexists _, _, new. split; [reflexivity |]. done.
Qed.

End Calls.

(** ** More of one download *)

Section MoreDownload.

Context (env : environment).

Lemma remove_tree_lookup (d : string) (w : world) (p : string) :
  fs (remove_tree d w) !! p
  = if String.prefix (d +:+ "/") p then None else fs w !! p.
Proof.
  unfold remove_tree. simpl.
  destruct (String.prefix (d +:+ "/") p) eqn:E.
  - apply map_lookup_filter_None. right. intros x _. simpl. congruence.
  - destruct (fs w !! p) as [x|] eqn:Ex.
    + by apply map_lookup_filter_Some.
    + apply map_lookup_filter_None. by left.
Qed.

(** X13.  Whichever way a download ends, nothing is left under its
    temporary directory, and every other file is as the attempt left it. *)
Theorem temporary_directory_removed (self : YouTubeDownloader) (url : string) (w : world) :
  let temp_dir := mkdtemp env (fs w) in
  ∃ attempt w1 result w',
    download_attempt env self url (_get_ydl_opts self temp_dir) w = (attempt, w1) ∧
    download_video env self url w = (Ok result, w') ∧
    (∀ p, String.prefix (temp_dir +:+ "/") p = true → fs w' !! p = None) ∧
    (∀ p, String.prefix (temp_dir +:+ "/") p = false → fs w' !! p = fs w1 !! p).
Proof.
  intros temp_dir.
  destruct (download_attempt env self url (_get_ydl_opts self temp_dir) w)
    as [[r|e] w1] eqn:E.
  - exists (Ok r), w1, r, (remove_tree temp_dir w1). split_and!.
    + done.
    + by apply download_video_returned.
    + intros p Hp. by rewrite remove_tree_lookup, Hp.
    + intros p Hp. by rewrite remove_tree_lookup, Hp.
  - destruct (roe_download_attempt _ _ _ _ _ _ _ E) as [x ->].
    exists (Raise (Exc x)), w1, None,
      (remove_tree temp_dir (add_stdout (failure_line x) w1)). split_and!.
    + done.
    + by apply download_video_caught.
    + intros p Hp. by rewrite remove_tree_lookup, Hp.
    + intros p Hp. by rewrite remove_tree_lookup, Hp.
Qed.

Lemma download_attempt_Some_present self url opts w p w' :
  download_attempt env self url opts w = (Ok (Some p), w') →
  is_Some (fs w' !! p).
Proof.
  unfold download_attempt.
  intros (_ & w1 & _ & H)%bind_Ok. apply bind_Ok in H as (info & w2 & _ & H).
  destruct (simulate (args self)).
  { apply bind_Ok in H as (_ & ? & _ & H). apply bind_Ok in H as (_ & ? & _ & H).
    apply bind_Ok in H as (? & ? & _ & H). apply bind_Ok in H as (_ & ? & _ & H).
    apply bind_Ok in H as (_ & ? & _ & H). done. }
  apply bind_Ok in H as (filename & w3 & _ & H).
  apply bind_Ok in H as (out & w4 & _ & H).
  apply bind_Ok in H as (out' & w5 & _ & H).
  apply bind_Ok in H as (present & w6 & Hex & H).
  unfold path_exists in Hex. injection Hex as <- <-.
  case_bool_decide as Hp; simpl in H.
  - unfold bind, print, ret in H. by injection H as <- <-.
  - unfold bind, print, ret in H. discriminate.
Qed.

(** X14.  A path [download_video] returns names a file that exists when
    the download is over (the output directory is not under the temporary
    directory): a download whose expected file is missing is reported
    as [None], whatever the engine said. *)
Theorem reported_file_exists (self : YouTubeDownloader) (url : string) (w : world)
    (output_path : string) (w' : world) :
  download_video env self url w = (Ok (Some output_path), w') →
  String.prefix (mkdtemp env (fs w) +:+ "/") output_path = false →
  is_Some (fs w' !! output_path).
Proof.
  intros H Hout.
  destruct (download_attempt env self url (_get_ydl_opts self (mkdtemp env (fs w))) w)
    as [[r|e] w1] eqn:E.
  - rewrite (download_video_returned _ _ _ _ _ _ E) in H. injection H as -> <-.
    rewrite remove_tree_lookup, Hout. by eapply download_attempt_Some_present.
  - destruct (roe_download_attempt _ _ _ _ _ _ _ E) as [x ->].
    by rewrite (download_video_caught _ _ _ _ _ _ E) in H.
Qed.

(** X15.  Called with [--simulate] set, [download_video] asks the engine
    for metadata only, prints the format selector it would have used, and
    returns [None]; looking the selector up never fails, since the format
    is always set. *)
Theorem download_video_dry_run (self : YouTubeDownloader) (url : string) (w : world)
    (info : info_dict) (files : gmap string string) :
  let temp_dir := mkdtemp env (fs w) in
  let opts := _get_ydl_opts self temp_dir in
  simulate (args self) = true →
  extract_info env url opts false (fs w) = (inr info, files) →
  download_video env self url w
  = (Ok None,
     remove_tree temp_dir
       (World files
          (stdout w
           ++ (if quiet (args self) then [] else [nl +:+ "Downloading: " +:+ url])
           ++ [nl +:+ "[DRY RUN] Would download:";
               "  Title: " +:+ default "Unknown" (info_title info);
               "  Format: " +:+ or_str (format (args self))
                                  (if audio_only (args self) then "bestaudio/best"
                                   else if video_only (args self) then "bestvideo"
                                   else "bestvideo+bestaudio/best");
               "  Output directory: " +:+ self_output_dir self])
          (calls w ++ [ExtractInfo url opts false]))).
Proof.
  intros temp_dir opts Hsim Hinfo.
  apply download_video_returned. fold temp_dir opts.
  unfold download_attempt. rewrite Hsim. simpl negb.
  assert (Hsel : getitem_str opts "format"
    = Ok (or_str (format (args self))
            (if audio_only (args self) then "bestaudio/best"
             else if video_only (args self) then "bestvideo"
             else "bestvideo+bestaudio/best"))).
  { unfold getitem_str, opts. by rewrite opts_format. }
  destruct (quiet (args self)); simpl.
  - unfold bind, ret, ydl_extract_info. simpl. rewrite Hinfo. simpl.
    unfold lift. rewrite Hsel. simpl. unfold add_stdout, add_call, set_fs. simpl.
    by rewrite <- !app_assoc.
  - unfold bind, ret, print, ydl_extract_info. simpl. rewrite Hinfo. simpl.
    unfold lift. rewrite Hsel. simpl. unfold add_stdout, add_call, set_fs. simpl.
    by rewrite <- !app_assoc.
Qed.

End MoreDownload.

(** X6.  A size cap reaches the engine only when it is set and not zero:
    with no [--max-filesize], or with a cap of 0 (of either sign), no
    ceiling is attached at all; a cap that is not a number is attached as
    it is. *)
Theorem max_filesize_attached (self : YouTubeDownloader) (temp_dir : string) :
  let opts := _get_ydl_opts self temp_dir in
  (is_Some (opts !! "max_filesize") ↔
   ∃ mb, max_filesize (args self) = Some mb ∧ truthy_float mb = true) ∧
  (max_filesize (args self) = None
   ∨ max_filesize (args self) = Some 0%float
   ∨ max_filesize (args self) = Some (-0)%float →
   opts !! "max_filesize" = None) ∧
  (max_filesize (args self) = Some nan → opts !! "max_filesize" = Some (VFloat nan)).
Proof.
  intros opts. unfold opts. rewrite opts_max_filesize. split_and!.
  - destruct (max_filesize (args self)) as [mb|].
    + destruct (truthy_float mb) eqn:T.
      * split; [intros _; by exists mb | by eexists].
      * split; [by intros [? ?] | intros (mb' & [= <-] & ?); congruence].
    + split; [by intros [? ?] | by intros (mb' & ? & _)].
  - by intros [->|[->| ->]].
  - by intros ->.
Qed.

(** ** The progress hook *)

Section Progress.

Import ProgressHook.

Lemma total_of_not_Absent d : total_of d ≠ Absent.
Proof.
  unfold total_of.
  destruct (total_bytes d) as [| |t]; [| |destruct (t =? 0)];
    by destruct (total_bytes_estimate d).
Qed.

Lemma call_quiet t self d : hook_quiet (call t self d).1.2 = hook_quiet self.
Proof.
  unfold call. destruct (hook_quiet self) eqn:Q; [done|].
  destruct (String.eqb (status d) "downloading").
  - destruct t; [|done].
    destruct (total_of d) as [| |tt]; [done..|].
    destruct (0 <? tt); [|done].
    by destruct (get_or_zero (downloaded_bytes d)).
  - destruct (String.eqb (status d) "finished"); [|done].
    destruct (pbar self) as [b|]; [|done].
    by destruct (bar_truthy b).
Qed.

Lemma call_ok t self d : hook_ok t self → hook_ok t (call t self d).1.2.
Proof.
  intros Hok. unfold call. destruct (hook_quiet self) eqn:Q; [done|].
  destruct (String.eqb (status d) "downloading").
  - destruct t; [|done].
    destruct (total_of d) as [| |tt]; [done..|].
    destruct (0 <? tt) eqn:Ht; [|done]. apply Z.ltb_lt in Ht.
    assert (Hb : 0 < bar_total (match pbar self with
                                | Some b => b
                                | None => {| bar_total := tt; bar_n := 0 |}
                                end)).
    { destruct (pbar self) as [b|] eqn:Eb; [by apply Hok | done]. }
    destruct (get_or_zero (downloaded_bytes d)); intros b [= <-]; by simpl.
  - destruct (String.eqb (status d) "finished"); [|done].
    destruct (pbar self) as [b|] eqn:Eb; [|done].
    destruct (bar_truthy b); [done|]. simpl. exact Hok.
Qed.

Lemma feed_snoc t self events d :
  feed t self (events ++ [d]) = (call t (feed t self events) d).1.2.
Proof. unfold feed. by rewrite foldl_app. Qed.

Lemma feed_ok t self events : hook_ok t self → hook_ok t (feed t self events).
Proof.
  revert self. induction events as [|d events IH]; intros self Hok; [done|].
  simpl. apply IH. by apply call_ok.
Qed.

Lemma feed_quiet t self events : hook_quiet (feed t self events) = hook_quiet self.
Proof.
  revert self. induction events as [|d events IH]; intros self; [done|].
  simpl. by rewrite IH, call_quiet.
Qed.

(** X16.  Whatever events a fresh hook has seen, a bar it holds was made
    with a positive total, so the [finished] event always closes it: after
    that event the hook holds no bar, nothing is raised, and the bare new
    line is printed only when there was no bar and the hook is not quiet. *)
Theorem finished_closes_bar (tqdm_installed quiet_flag : bool)
    (events : list progress) (d : progress) :
  let self := feed tqdm_installed (new quiet_flag) events in
  status d = "finished" →
  call tqdm_installed self d
  = (None, new quiet_flag,
     if quiet_flag then []
     else match pbar self with Some _ => [] | None => [nl] end).
Proof.
  intros self Hd.
  assert (Hq : hook_quiet self = quiet_flag) by apply feed_quiet.
  assert (Hok : hook_ok tqdm_installed self) by (by apply feed_ok).
  unfold call. rewrite Hd, Hq. destruct quiet_flag.
  - destruct (pbar self) as [b|] eqn:Eb.
    + destruct (Hok b Eb) as (_ & _ & Hb). congruence.
    + destruct self as [q p]. simpl in *. by rewrite Hq, Eb.
  - simpl. destruct (pbar self) as [b|] eqn:Eb.
    + destruct (Hok b Eb) as (Hb & _ & _). unfold bar_truthy.
      by apply Z.ltb_lt in Hb as ->.
    + destruct self as [q p]. simpl in *. by rewrite Hq, Eb.
Qed.

(** X17.  The hook raises exactly on a [downloading] event of a hook that
    is not quiet, with [tqdm] installed, whose total size or (with a
    positive total) downloaded size is present but [None]; without [tqdm],
    or when quiet, it never raises. *)
Theorem hook_raises_iff (tqdm_installed : bool) (self : hook) (d : progress) :
  (call tqdm_installed self d).1.1 ≠ None ↔
  hook_quiet self = false ∧ status d = "downloading" ∧ tqdm_installed = true ∧
  (total_of d = IsNone ∨
   ∃ total, total_of d = Num total ∧ 0 < total ∧ downloaded_bytes d = IsNone).
Proof.
  unfold call. destruct (hook_quiet self) eqn:Q.
  { split; [done | by intros (? & _)]. }
  destruct (String.eqb (status d) "downloading") eqn:Es.
  - apply String.eqb_eq in Es. destruct tqdm_installed.
    2: { split; [done | by intros (_ & _ & ? & _)]. }
    pose proof (total_of_not_Absent d) as Hna.
    destruct (total_of d) as [| |tt] eqn:Et; [done| |].
    { split; [intros _; split_and!; auto | done]. }
    destruct (0 <? tt) eqn:Ht.
    + apply Z.ltb_lt in Ht.
      destruct (downloaded_bytes d) as [| |k] eqn:Ek; simpl.
      * split; [done | intros (_ & _ & _ & [?|(? & _ & _ & ?)]); done].
      * split; [intros _; split_and!; eauto | done].
      * split; [done | intros (_ & _ & _ & [?|(? & _ & _ & ?)]); done].
    + apply Z.ltb_ge in Ht. split; [done|].
      intros (_ & _ & _ & [?|(? & [= <-] & ? & _)]); [done | lia].
  - apply String.eqb_neq in Es.
    split; [| by intros (_ & ? & _)].
    intros Hne. exfalso. apply Hne. clear Hne.
    destruct (String.eqb (status d) "finished"); [|done].
    destruct (pbar self) as [b|]; [destruct (bar_truthy b)|]; by rewrite ?Q.
Qed.

(** X18.  With a bar shown, the bar's counter after a [downloading]
    event is the number of bytes the event reports, whatever the counter
    was, and the bar's total stays the one of the event that created it. *)
Theorem bar_follows_download (self : hook) (d : progress) (total downloaded : Z) :
  hook_quiet self = false →
  status d = "downloading" →
  total_of d = Num total →
  0 < total →
  downloaded_bytes d = Num downloaded →
  ∃ b, pbar (call true self d).1.2 = Some b ∧
       bar_n b = downloaded ∧
       bar_total b = from_option bar_total total (pbar self) ∧
       (call true self d).1.1 = None ∧ (call true self d).2 = [].
Proof.
  intros Q Hs Ht Hpos Hk. unfold call. rewrite Q, Hs, Ht, Hk. simpl.
  apply Z.ltb_lt in Hpos as ->.
  eexists. split_and!; [done | simpl; lia | by destruct (pbar self) | done..].
Qed.

End Progress.

Lemma finished_closes_bar_witness :
  ProgressHook.call true
    (ProgressHook.feed true (ProgressHook.new false)
       [ProgressHook.Build_progress "downloading" (ProgressHook.Num 100) ProgressHook.Absent
          (ProgressHook.Num 40) None None None])
    (ProgressHook.Build_progress "finished" ProgressHook.Absent ProgressHook.Absent
       ProgressHook.Absent None None None)
  = (None, ProgressHook.new false, []).
Proof.
  apply (finished_closes_bar true false
           [ProgressHook.Build_progress "downloading" (ProgressHook.Num 100)
              ProgressHook.Absent (ProgressHook.Num 40) None None None]
           (ProgressHook.Build_progress "finished" ProgressHook.Absent ProgressHook.Absent
              ProgressHook.Absent None None None)).
  reflexivity.
Defined.

Lemma bar_follows_download_witness :
  ∃ b, ProgressHook.pbar
         (ProgressHook.call true
            {| ProgressHook.hook_quiet := false;
               ProgressHook.pbar := Some {| ProgressHook.bar_total := 100;
                                            ProgressHook.bar_n := 40 |} |}
            (ProgressHook.Build_progress "downloading" (ProgressHook.Num 120)
               ProgressHook.Absent (ProgressHook.Num 70) None None None)).1.2 = Some b ∧
       ProgressHook.bar_n b = 70 ∧ ProgressHook.bar_total b = 100.
Proof.
  destruct (bar_follows_download
              {| ProgressHook.hook_quiet := false;
                 ProgressHook.pbar := Some {| ProgressHook.bar_total := 100;
                                              ProgressHook.bar_n := 40 |} |}
              (ProgressHook.Build_progress "downloading" (ProgressHook.Num 120)
                 ProgressHook.Absent (ProgressHook.Num 70) None None None)
              120 70 eq_refl eq_refl eq_refl eq_refl eq_refl)
    as (b & Hb & Hn & Ht & _).
  exists b. split_and!; [exact Hb | exact Hn | exact Ht].
Defined.

(** ** The properties above on the sample download *)

Lemma embed_remux_success_witness :
  ∃ w', _embed_subtitles (Demo.env 0 0)
          (Demo.downloader (Demo.request Demo.three_urls false false) true)
          "/out/clip.mp4" Demo.info Demo.fetched = (Ok "/out/clip.mp4", w') ∧
        fs w' !! "/out/clip.mp4" = Some "muxed" ∧
        fs w' !! "/out/clip.temp.mp4" = None ∧
        fs w' !! "/out/clip.en.vtt" = None.
Proof.
  destruct (embed_remux_success (Demo.env 0 0)
              (Demo.downloader (Demo.request Demo.three_urls false false) true)
              "/out/clip.mp4" "/out/clip" "/out/clip.temp.mp4" Demo.info Demo.fetched
              (<["/out/clip.temp.mp4" := "muxed"]> (fs Demo.fetched)) "muxed")
    as (w' & Hrun & Hvideo & Htemp & Hsubs & _).
  - by exists "video".
  - reflexivity.
  - reflexivity.
  - by vm_compute.
  - intros H. apply list_elem_of_In in H. vm_compute in H.
    destruct H as [H|[H|[H|[]]]]; discriminate.
  - intros s. split; [apply NoDup_elements | intros x; apply elem_of_elements].
  - by vm_compute.
  - done.
  - intros p Hp. by rewrite lookup_insert_ne.
  - exists w'. split_and!; [exact Hrun | exact Hvideo | exact Htemp |].
    apply (Hsubs "en"). apply list_elem_of_In. vm_compute. by left.
Defined.

Lemma embed_remux_no_output_witness :
  ∃ w', _embed_subtitles Stub.silent
          (Demo.downloader (Demo.request Demo.three_urls false false) true)
          "/out/clip.mp4" Demo.info Demo.fetched = (Ok "/out/clip.mp4", w') ∧
        fs w' = fs Demo.fetched.
Proof.
  eexists. split.
  - apply (embed_remux_no_output Stub.silent
             (Demo.downloader (Demo.request Demo.three_urls false false) true)
             "/out/clip.mp4" "/out/clip" "/out/clip.temp.mp4" Demo.info Demo.fetched
             (fs Demo.fetched)).
    + by exists "video".
    + reflexivity.
    + reflexivity.
    + by vm_compute.
    + reflexivity.
    + by vm_compute.
  - reflexivity.
Defined.

Lemma embed_process_not_started_witness :
  ∃ w', _embed_subtitles Stub.missing
          (Demo.downloader (Demo.request Demo.three_urls false false) true)
          "/out/clip.mp4" Demo.info Demo.fetched
        = (Raise (Exc (FileNotFoundError "[Errno 2] No such file or directory: 'ffmpeg'")),
           w').
Proof.
  eexists.
  apply (embed_process_not_started Stub.missing
           (Demo.downloader (Demo.request Demo.three_urls false false) true)
           "/out/clip.mp4" "/out/clip" "/out/clip.temp.mp4" Demo.info Demo.fetched
           (FileNotFoundError "[Errno 2] No such file or directory: 'ffmpeg'")
           "[Errno 2] No such file or directory: 'ffmpeg'").
  - by exists "video".
  - reflexivity.
  - reflexivity.
  - by vm_compute.
  - reflexivity.
  - by left.
Defined.

Lemma run_attempts_every_url_witness :
  ∃ exit_code w' new,
    run (Demo.env 0 0)
        (Demo.downloader (Demo.request Demo.three_urls false false) true) Demo.nothing
    = (Ok exit_code, w') ∧
    calls w' = new ∧
    engine_urls new = Demo.three_urls.
Proof.
  destruct (run_attempts_every_url (Demo.env 0 0)
              (Demo.downloader (Demo.request Demo.three_urls false false) true)
              Demo.nothing eq_refl)
    as (exit_code & w' & new & Hrun & Hcalls & Hurls & _).
  exists exit_code, w', new. split_and!; [exact Hrun | exact Hcalls | exact Hurls].
Defined.

Lemma reported_file_exists_witness :
  ∃ w', download_video (Demo.env 0 0)
          (Demo.downloader (Demo.request Demo.three_urls false false) false)
          "https://youtu.be/abc" Demo.nothing = (Ok (Some "/out/clip.mp4"), w') ∧
        is_Some (fs w' !! "/out/clip.mp4").
Proof.
  eexists. split; [by vm_compute |].
  apply (reported_file_exists (Demo.env 0 0)
           (Demo.downloader (Demo.request Demo.three_urls false false) false)
           "https://youtu.be/abc" Demo.nothing "/out/clip.mp4");
    by vm_compute.
Defined.

Lemma download_video_dry_run_witness :
  (download_video (Demo.env 0 0)
     (Demo.downloader (Demo.request Demo.three_urls false true) true)
     "https://youtu.be/abc" Demo.nothing).1 = Ok None.
Proof.
  by rewrite (download_video_dry_run (Demo.env 0 0)
                (Demo.downloader (Demo.request Demo.three_urls false true) true)
                "https://youtu.be/abc" Demo.nothing Demo.info ∅ eq_refl eq_refl).
Defined.
